(** * NanoNeuron: a single linear unit trained by gradient steps

    A shallow embedding of [src/index.ts] and the properties of its training
    loop.  The program works on JavaScript numbers, on one mutable object
    (the [NanoNeuron] holding [w] and [b]) and on arrays that are shared by
    reference, so the embedding has three layers:

    - [Number]: the arithmetic the program uses, as an interface with two
      implementations, binary64 floating point (what the program runs on)
      and the real numbers (what the formulas of the specification mean);
    - a store of objects addressed by references, and a small monad in which
      every function of the source is written statement by statement;
    - list-level functions that say what each pass computes, against which
      the store-level functions are proved.

    The definitions come first, the lemmas and theorems after them. *)

From Stdlib Require Import ZArith QArith Reals Lra Lia Floats.
From stdpp Require Import base option list gmap.

Set Warnings "-inexact-float".

(** ** Numbers *)

(** The operations of [number] that the source uses.  [ofZ] reads an integer
    literal or an integer count ([xTrain.length]) as a number, [ofDec] a
    decimal literal such as [1.8]; [sqr x] is [x ** 2]; [ltb] is [<]; [NaN]
    is what arithmetic makes of the [undefined] that reading past the end of
    an array gives. *)
Class Number (T : Type) : Type := {
  ofZ : Z → T;
  ofDec : Q → T;
  add : T → T → T;
  sub : T → T → T;
  mul : T → T → T;
  div : T → T → T;
  sqr : T → T;
  ltb : T → T → bool;
  NaN : T
}.

(** Binary64 floating point.  An integer of magnitude below 2^53 converts
    exactly; a decimal literal [n/10^k] with such [n] and [10^k] is the
    correctly rounded quotient, which is the double the literal denotes.
    [x ** 2] is taken as [x * x]: the language leaves the last bit of [**]
    to the implementation, and the program uses it for the cost only, which
    it reports and never feeds back into [w] and [b]. *)
Definition floatOfZ (z : Z) : float :=
  if (z <? 0)%Z then PrimFloat.opp (PrimFloat.of_uint63 (Uint63.of_Z (- z)))
  else PrimFloat.of_uint63 (Uint63.of_Z z).

Definition floatOfDec (q : Q) : float :=
  PrimFloat.div (floatOfZ (Qnum q)) (floatOfZ (Zpos (Qden q))).

#[export] Instance FloatNumber : Number float := {|
  ofZ := floatOfZ;
  ofDec := floatOfDec;
  add := PrimFloat.add;
  sub := PrimFloat.sub;
  mul := PrimFloat.mul;
  div := PrimFloat.div;
  sqr := λ x, PrimFloat.mul x x;
  ltb := PrimFloat.ltb;
  NaN := PrimFloat.nan
|}.

(** The real numbers.  They have no NaN: the value that stands for it is a
    parameter, so that what is proved over the reals holds for every choice
    of it. *)
Definition RealNumber (nan : R) : Number R := {|
  ofZ := IZR;
  ofDec := Q2R;
  add := Rplus;
  sub := Rminus;
  mul := Rmult;
  div := Rdiv;
  sqr := λ x, (x ^ 2)%R;
  ltb := λ x y, if Rlt_dec x y then true else false;
  NaN := nan
|}.

(** ** The store *)

(** References are addresses in one store, as in JavaScript: two variables
    may hold the same reference. *)
Abbreviation ref := nat (only parsing).

(** The two ways to read the program.  [JS] is the language's own meaning: a
    read past the end of an array gives [undefined], hence [NaN], and any
    division goes through.  [Checked] stops at such a read, and at a division
    by a count of zero. *)
Inductive semantics : Type := JS | Checked.

(** Why a computation stops.  [BadReference]: the reference is to no object
    of the kind the operation needs, which the types of the source exclude.
    [OutOfRange] and [DivisionByZero] arise under [Checked] only, [OutOfFuel]
    in the loops over a number. *)
Inductive fault : Type :=
  | BadReference
  | OutOfRange
  | DivisionByZero
  | OutOfFuel.

Section Program.
Context {T : Type} `{Number T}.

(** [class NanoNeuron { w: number; b: number; ... }] *)
Record NanoNeuron : Type := mkNanoNeuron { w : T; b : T }.

Inductive object : Type :=
  | Neuron (n : NanoNeuron)
  | Array (elems : list T).

Inductive outcome (A : Type) : Type :=
  | Ok (a : A) (s : gmap nat object)
  | Stop (e : fault).
Arguments Ok {A} a s.
Arguments Stop {A} e.

(** A computation reads and writes the store and yields a value, or stops. *)
Definition M (A : Type) : Type := gmap nat object → outcome A.

Definition ret {A} (a : A) : M A := λ s, Ok a s.

Definition bind {A B} (c : M A) (k : A → M B) : M B :=
  λ s, match c s with
       | Ok a s' => k a s'
       | Stop e => Stop e
       end.

Definition stop {A} (e : fault) : M A := λ _, Stop e.

Notation "x <- c ;; k" := (bind c (λ x, k))
  (at level 100, c at next level, right associativity).
Notation "c ;;; k" := (bind c (λ _, k))
  (at level 100, right associativity).

(** *** Operations on objects *)

(** [new NanoNeuron(w, b)] *)
Definition newNanoNeuron (w0 b0 : T) : M ref :=
  λ s, let r := fresh (dom s) in Ok r (<[r := Neuron (mkNanoNeuron w0 b0)]> s).

(** [r.w], [r.b] *)
Definition getField (f : NanoNeuron → T) (r : ref) : M T :=
  λ s, match s !! r with
       | Some (Neuron n) => Ok (f n) s
       | _ => Stop BadReference
       end.

(** [r.w = v], [r.b = v] *)
Definition setW (r : ref) (v : T) : M unit :=
  λ s, match s !! r with
       | Some (Neuron n) => Ok () (<[r := Neuron (mkNanoNeuron v (b n))]> s)
       | _ => Stop BadReference
       end.

Definition setB (r : ref) (v : T) : M unit :=
  λ s, match s !! r with
       | Some (Neuron n) => Ok () (<[r := Neuron (mkNanoNeuron (w n) v)]> s)
       | _ => Stop BadReference
       end.

(** [[]]: a new, empty array *)
Definition newArray : M ref :=
  λ s, let r := fresh (dom s) in Ok r (<[r := Array []]> s).

(** [a.length] *)
Definition arrayLength (a : ref) : M nat :=
  λ s, match s !! a with
       | Some (Array l) => Ok (length l) s
       | _ => Stop BadReference
       end.

(** [a[i]], used as a number *)
Definition arrayGet (sem : semantics) (a : ref) (i : nat) : M T :=
  λ s, match s !! a with
       | Some (Array l) =>
           match l !! i with
           | Some x => Ok x s
           | None => match sem with
                     | JS => Ok NaN s
                     | Checked => Stop OutOfRange
                     end
           end
       | _ => Stop BadReference
       end.

(** [a.push(v)] *)
Definition arrayPush (a : ref) (v : T) : M unit :=
  λ s, match s !! a with
       | Some (Array l) => Ok () (<[a := Array (l ++ [v])]> s)
       | _ => Stop BadReference
       end.

(** [x / m] for a count [m] *)
Definition divCount (sem : semantics) (x : T) (m : nat) : M T :=
  match sem, m with
  | Checked, O => stop DivisionByZero
  | _, _ => ret (div x (ofZ (Z.of_nat m)))
  end.

(** *** Loops *)

(** [for (let i = i0; i < i0 + n; i += 1) body], the loop variable an
    integer; [a] is what the body carries from one round to the next. *)
Fixpoint forLoop {A} (n : nat) (i : nat) (body : nat → A → M A) (a : A) : M A :=
  match n with
  | O => ret a
  | S n' => a' <- body i a ;; forLoop n' (S i) body a'
  end.

(** [for (let x = x0; x < bound; x += step) body], the loop variable a
    number.  Nothing in the arithmetic of [T] says that [x] ever reaches
    [bound], so the loop is given [fuel] rounds and stops when it needs
    more. *)
Fixpoint forNumber (fuel : nat) (x bound step : T) (body : T → M unit) : M unit :=
  match fuel with
  | O => stop OutOfFuel
  | S fuel' =>
      if ltb x bound then body x ;;; forNumber fuel' (add x step) bound step body
      else ret ()
  end.

(** ** The program *)

Definition W : T := ofDec 1.8.
Definition B : T := ofZ 32.
Definition celsiusToFahrenheit (c : T) : T := add (mul c W) B.

Record DataSets : Type := mkDataSets {
  xTrain : ref;
  xTest : ref;
  yTrain : ref;
  yTest : ref
}.

Definition generateDataSets (fuel : nat) : M DataSets :=
  xTrain <- newArray ;;
  yTrain <- newArray ;;
  forNumber fuel (ofZ 0) (ofZ 100) (ofZ 1) (λ x,
    let y := celsiusToFahrenheit x in
    arrayPush xTrain x ;;;
    arrayPush yTrain y) ;;;
  xTest <- newArray ;;
  yTest <- newArray ;;
  forNumber fuel (ofDec 0.5) (ofZ 100) (ofZ 1) (λ x,
    let y := celsiusToFahrenheit x in
    arrayPush xTest x ;;;
    arrayPush yTest y) ;;;
  ret (mkDataSets xTrain xTest yTrain yTest).

(** [NanoNeuron.predict] *)
Definition predict (this : ref) (x : T) : M T :=
  w <- getField w this ;;
  b <- getField b this ;;
  ret (add (mul x w) b).

Definition predictionCost (y yPredicted : T) : T :=
  div (sqr (sub y yPredicted)) (ofZ 2).

(** The object a pass returns is taken apart by its caller at once, so it is
    a value here and not an object of the store; [predictions] is the
    reference to the array. *)
Record ForwardResult : Type := mkForwardResult {
  predictions : ref;
  averageCost : T
}.

Definition forwardPropagation (sem : semantics) (model xTrain yTrain : ref)
  : M ForwardResult :=
  m <- arrayLength xTrain ;;
  predictions <- newArray ;;
  cost <- forLoop m 0 (λ i cost,
    x <- arrayGet sem xTrain i ;;
    yPredicted <- predict model x ;;
    y <- arrayGet sem yTrain i ;;
    let cost := add cost (predictionCost y yPredicted) in
    arrayPush predictions yPredicted ;;;
    ret cost) (ofZ 0) ;;
  averageCost <- divCount sem cost m ;;
  ret (mkForwardResult predictions averageCost).

Record BackwardResult : Type := mkBackwardResult {
  averageDeltaB : T;
  averageDeltaW : T
}.

Definition backwardPropagation (sem : semantics) (predictions xTrain yTrain : ref)
  : M BackwardResult :=
  m <- arrayLength xTrain ;;
  deltas <- forLoop m 0 (λ i deltas,
    y <- arrayGet sem yTrain i ;;
    p <- arrayGet sem predictions i ;;
    x <- arrayGet sem xTrain i ;;
    let deltaW := add (fst deltas) (mul (sub y p) x) in
    y' <- arrayGet sem yTrain i ;;
    p' <- arrayGet sem predictions i ;;
    let deltaB := add (snd deltas) (sub y' p') in
    ret (deltaW, deltaB)) (ofZ 0, ofZ 0) ;;
  averageDeltaW <- divCount sem (fst deltas) m ;;
  averageDeltaB <- divCount sem (snd deltas) m ;;
  ret (mkBackwardResult averageDeltaB averageDeltaW).

(** One round of the loop of [trainModel]. *)
Definition trainEpoch (sem : semantics) (model : ref) (alpha : T)
    (xTrain yTrain costHistory : ref) : M unit :=
  fwd <- forwardPropagation sem model xTrain yTrain ;;
  arrayPush costHistory (averageCost fwd) ;;;
  bwd <- backwardPropagation sem (predictions fwd) xTrain yTrain ;;
  w0 <- getField w model ;;
  setW model (add w0 (mul (averageDeltaW bwd) alpha)) ;;;
  b0 <- getField b model ;;
  setB model (add b0 (mul (averageDeltaB bwd) alpha)).

(** [epochs] is a count, [0, 1, 2, ...]. *)
Definition trainModel (sem : semantics) (model : ref) (epochs : nat) (alpha : T)
    (xTrain yTrain : ref) : M ref :=
  costHistory <- newArray ;;
  forLoop epochs 0 (λ _ _,
    trainEpoch sem model alpha xTrain yTrain costHistory) () ;;;
  ret costHistory.

(** What the driver at the end of the file logs.  [Math.random()] is not
    modelled: its two results are the arguments [randomW] and [randomB]. *)
Record Report : Type := mkReport {
  nanoNeuron : ref;
  firstCost : T;
  lastCost : T;
  predicted : T;
  actual : T
}.

Definition main (sem : semantics) (fuel : nat) (randomW randomB : T) : M Report :=
  nanoNeuron <- newNanoNeuron randomW randomB ;;
  sets <- generateDataSets fuel ;;
  costHistory <- trainModel sem nanoNeuron (Z.to_nat 70000) (ofDec 0.0005)
                   (xTrain sets) (yTrain sets) ;;
  first <- arrayGet sem costHistory 0 ;;
  len <- arrayLength costHistory ;;
  last <- arrayGet sem costHistory (len - 1) ;;
  let celsius := ofZ 30 in
  predicted <- predict nanoNeuron celsius ;;
  ret (mkReport nanoNeuron first last predicted (celsiusToFahrenheit celsius)).

End Program.

Arguments Ok {T A} a s.
Arguments Stop {T A} e.
Arguments NanoNeuron T : clear implicits.
Arguments object T : clear implicits.
Arguments outcome T A : clear implicits.
Arguments M T A : clear implicits.

Notation "x <- c ;; k" := (bind c (λ x, k))
  (at level 100, c at next level, right associativity).
Notation "c ;;; k" := (bind c (λ _, k))
  (at level 100, right associativity).

(** ** What each pass computes

    The passes again, on the contents of the arrays instead of on references
    into a store: what the specification calls the predictions, the average
    cost and the average deltas.  The sums run over the indices below
    [xTrain.length] in increasing order, as the loops do. *)

Section Values.
Context {T : Type} `{Number T}.

(** [l[i]] read as a number *)
Definition readAt (l : list T) (i : nat) : T := default NaN (l !! i).

Definition predictWith (n : NanoNeuron T) (x : T) : T :=
  add (mul x (w n)) (b n).

Definition costSum (n : NanoNeuron T) (xs ys : list T) (m : nat) : T :=
  fold_left
    (λ cost i, add cost (predictionCost (readAt ys i) (predictWith n (readAt xs i))))
    (seq 0 m) (ofZ 0).

Definition predictionsOf (n : NanoNeuron T) (xs : list T) : list T :=
  map (predictWith n) xs.

Definition averageCostOf (n : NanoNeuron T) (xs ys : list T) : T :=
  div (costSum n xs ys (length xs)) (ofZ (Z.of_nat (length xs))).

Definition deltaSums (ps xs ys : list T) (m : nat) : T * T :=
  fold_left
    (λ deltas i,
       (add (fst deltas) (mul (sub (readAt ys i) (readAt ps i)) (readAt xs i)),
        add (snd deltas) (sub (readAt ys i) (readAt ps i))))
    (seq 0 m) (ofZ 0, ofZ 0).

Definition deltasOf (ps xs ys : list T) : BackwardResult :=
  let deltas := deltaSums ps xs ys (length xs) in
  let count := ofZ (Z.of_nat (length xs)) in
  mkBackwardResult (div (snd deltas) count) (div (fst deltas) count).

(** The update of step 4: [w += averageDeltaW * alpha],
    [b += averageDeltaB * alpha]. *)
Definition updated (alpha : T) (n : NanoNeuron T) (d : BackwardResult) : NanoNeuron T :=
  mkNanoNeuron (add (w n) (mul (averageDeltaW d) alpha))
               (add (b n) (mul (averageDeltaB d) alpha)).

(** One iteration of the trainer, as the specification lists it: forward
    pass, the cost appended to the history, backward pass on the predictions
    of this forward pass, update. *)
Definition epochOf (alpha : T) (xs ys : list T) (st : list T * NanoNeuron T)
  : list T * NanoNeuron T :=
  let n := snd st in
  let ps := predictionsOf n xs in
  let cost := averageCostOf n xs ys in
  let d := deltasOf ps xs ys in
  (fst st ++ [cost], updated alpha n d).

Definition trainingOf (epochs : nat) (alpha : T) (xs ys : list T) (n : NanoNeuron T)
  : list T * NanoNeuron T :=
  Nat.iter epochs (epochOf alpha xs ys) ([], n).

Definition inRange (sem : semantics) (i : nat) (l : list T) : Prop :=
  sem = Checked → i < length l.

(** The model after one iteration of the trainer. *)
Definition stepOf (alpha : T) xs ys nn : NanoNeuron T :=
  updated alpha nn (deltasOf (predictionsOf nn xs) xs ys).

(** The two sums of the backward pass taken in one pass over inputs and
    targets, each prediction computed where it is used. *)
Fixpoint deltaScan nn xs ys (deltas : T * T) : T * T :=
  match xs, ys with
  | x :: xs', y :: ys' =>
      let p := predictWith nn x in
      deltaScan nn xs' ys'
        (add (fst deltas) (mul (sub y p) x), add (snd deltas) (sub y p))
  | _, _ => deltas
  end.

Definition scanStep (alpha : T) xs ys nn : NanoNeuron T :=
  let deltas := deltaScan nn xs ys (ofZ 0, ofZ 0) in
  let count := ofZ (Z.of_nat (length xs)) in
  updated alpha nn (mkBackwardResult (div (snd deltas) count) (div (fst deltas) count)).

(** The values the loop variable of [forNumber] takes, when [fuel] rounds
    are enough for the loop to end. *)
Fixpoint numberRange (fuel : nat) (x bound step : T) : option (list T) :=
  match fuel with
  | O => None
  | S fuel' =>
      if ltb x bound
      then match numberRange fuel' (add x step) bound step with
           | Some vals => Some (x :: vals)
           | None => None
           end
      else Some []
  end.

(** [body] on each value in turn. *)
Fixpoint forEach (vals : list T) (body : T → M T unit) : M T unit :=
  match vals with
  | [] => ret ()
  | v :: vals' => body v ;;; forEach vals' body
  end.

End Values.

(** Iterating in stretches of [n] steps, with the value after each stretch
    written down. *)
Fixpoint stretches {A} (step : A → A) (n : nat) (a : A) (marks : list A) : Prop :=
  match marks with
  | [] => True
  | c :: marks' => Nat.iter n step a = c ∧ stretches step n c marks'
  end.

Fixpoint marksOf {A} (step : A → A) (n k : nat) (a : A) : list A :=
  match k with
  | O => []
  | S k' => let c := Nat.iter n step a in c :: marksOf step n k' c
  end.

(** *** Sums and costs over the real numbers *)

(** [sigma m f] is the sum of [f i] over the indices [i] below [m]. *)
Fixpoint sigma (m : nat) (f : nat → R) : R :=
  match m with
  | O => 0%R
  | S k => (sigma k f + f k)%R
  end.

(** The cost a forward pass reports; [nan] where it has stopped. *)
Definition reportedCost (nan : R) (o : outcome R ForwardResult) : R :=
  match o with
  | Ok fwd _ => averageCost fwd
  | Stop _ => nan
  end.

(** *** Stores and data to run the program on *)

(** A store to run the program on: a neuron at 0, with [w = 0.5] and
    [b = 0.25], the inputs [1, 2] at 1, the targets [3, 5] at 2, and at 3
    what the neuron predicts for the inputs. *)
Definition sampleStore : gmap nat (object float) :=
  {[ 0 := Neuron (mkNanoNeuron 0.5%float 0.25%float);
     1 := Array [1%float; 2%float];
     2 := Array [3%float; 5%float];
     3 := Array [0.75%float; 1.25%float] ]}.

(** A store over the reals: a neuron with [w = 2] and [b = 1] at 0, the
    inputs [1, 2] at 1, the targets [4, 7] at 2 and, at 3, the predictions
    [3, 5] of the neuron for the inputs. *)
Definition realStore : gmap nat (object R) :=
  {[ 0 := Neuron (mkNanoNeuron 2%R 1%R);
     1 := Array [1%R; 2%R];
     2 := Array [4%R; 7%R];
     3 := Array [3%R; 5%R] ]}.


(** The integers [0 .. 99] and the values [0.5 .. 99.5], as numbers. *)
Definition trainingGrid : list float :=
  map (λ k, floatOfZ (Z.of_nat k)) (seq 0 100).

Definition testGrid : list float :=
  map (λ k, PrimFloat.add (floatOfZ (Z.of_nat k)) 0.5%float) (seq 0 100).

(** The integers [0 .. 99] as real numbers, each the sum the loop of the
    generator forms. *)
Definition realGrid : list R := map (λ i, (INR i + 0)%R) (seq 0 100).

Definition memberOf (x : float) (l : list float) : bool :=
  existsb (PrimFloat.Leibniz.eqb x) l.

Definition initialModel : NanoNeuron float :=
  mkNanoNeuron 0.9492%float 0.4570%float.

Definition trainingTargets : list float :=
  map celsiusToFahrenheit trainingGrid.

(** The model after every 1000 of the 70000 iterations. *)
Definition trainingMarks : list (NanoNeuron float) :=
  Eval vm_compute in
    marksOf (scanStep (ofDec 0.0005) trainingGrid trainingTargets) 1000 70
      initialModel.

(** ** The literals of the program, in binary64 *)

Example literal_W : ofDec 1.8 = 1.8%float.
Proof. reflexivity. Qed.

Example literal_alpha : ofDec 0.0005 = 0.0005%float.
Proof. reflexivity. Qed.

Example literal_half : ofDec 0.5 = 0.5%float.
Proof. reflexivity. Qed.

Example fahrenheit_of_30 : celsiusToFahrenheit 30%float = 86%float.
Proof. reflexivity. Qed.

(** ** The operations on a store that has the objects *)

Section Operations.
Context {T : Type} `{Number T}.

Lemma bind_Ok {A C} (c : M T A) (k : A → M T C) s a s' :
  c s = Ok a s' → bind c k s = k a s'.
Proof. unfold bind. by intros ->. Qed.

Lemma getField_Ok f r n (s : gmap nat (object T)) :
  s !! r = Some (Neuron n) → getField f r s = Ok (f n) s.
Proof. unfold getField. by intros ->. Qed.

Lemma setW_Ok r v n (s : gmap nat (object T)) :
  s !! r = Some (Neuron n) →
  setW r v s = Ok () (<[r := Neuron (mkNanoNeuron v (b n))]> s).
Proof. unfold setW. by intros ->. Qed.

Lemma setB_Ok r v n (s : gmap nat (object T)) :
  s !! r = Some (Neuron n) →
  setB r v s = Ok () (<[r := Neuron (mkNanoNeuron (w n) v)]> s).
Proof. unfold setB. by intros ->. Qed.

Lemma arrayLength_Ok a l (s : gmap nat (object T)) :
  s !! a = Some (Array l) → arrayLength a s = Ok (length l) s.
Proof. unfold arrayLength. by intros ->. Qed.

Lemma arrayGet_Ok sem a i l (s : gmap nat (object T)) :
  s !! a = Some (Array l) → inRange sem i l →
  arrayGet sem a i s = Ok (readAt l i) s.
Proof.
  unfold arrayGet, readAt, inRange. intros -> Hi.
  destruct (l !! i) as [x|] eqn:E; [done|].
  destruct sem; [done|].
  apply lookup_ge_None in E. specialize (Hi eq_refl). lia.
Qed.

Lemma arrayPush_Ok a v l (s : gmap nat (object T)) :
  s !! a = Some (Array l) →
  arrayPush a v s = Ok () (<[a := Array (l ++ [v])]> s).
Proof. unfold arrayPush. by intros ->. Qed.

Lemma divCount_Ok sem x m (s : gmap nat (object T)) :
  (sem = Checked → m ≠ 0) →
  divCount sem x m s = Ok (div x (ofZ (Z.of_nat m))) s.
Proof.
  unfold divCount. intros Hm.
  destruct sem; [done|]. destruct m; [by destruct Hm|done].
Qed.

Lemma predict_Ok this x n (s : gmap nat (object T)) :
  s !! this = Some (Neuron n) → predict this x s = Ok (predictWith n x) s.
Proof.
  intros Hn. unfold predict.
  rewrite (bind_Ok _ _ _ _ _ (getField_Ok w _ _ _ Hn)).
  by rewrite (bind_Ok _ _ _ _ _ (getField_Ok b _ _ _ Hn)).
Qed.

Lemma fresh_lookup (s : gmap nat (object T)) : s !! fresh (dom s) = None.
Proof. apply not_elem_of_dom, is_fresh. Qed.

Lemma fresh_ne (s : gmap nat (object T)) r o :
  s !! r = Some o → fresh (dom s) ≠ r.
Proof. intros Hr E. rewrite <- E, fresh_lookup in Hr. done. Qed.

End Operations.

(** ** The passes on a store *)

(** [mstep] runs the first operation of a sequence, given the objects it
    touches. *)
Ltac prim :=
  first [ eapply arrayGet_Ok | eapply arrayPush_Ok | eapply arrayLength_Ok
        | eapply predict_Ok | eapply getField_Ok | eapply setW_Ok | eapply setB_Ok
        | eapply divCount_Ok ].
Ltac mstep tac := erewrite bind_Ok; [| prim; solve [tac] ].
Ltac lookups :=
  repeat first [ rewrite lookup_insert_eq | rewrite lookup_insert_ne by done ].

Section Passes.
Context {T : Type} `{Number T}.
Implicit Types (s : gmap nat (object T)) (xs ys ps acc : list T) (nn : NanoNeuron T).

Lemma map_readAt_seq {C} (f : T → C) xs :
  map (λ j, f (readAt xs j)) (seq 0 (length xs)) = map f xs.
Proof.
  induction xs as [|x xs IH] using rev_ind; [done|].
  rewrite length_app, Nat.add_comm. cbn [length Nat.add].
  rewrite seq_S, !map_app. cbn [map Nat.add]. f_equal.
  - rewrite <- IH. apply map_ext_in. intros j Hj%in_seq.
    unfold readAt. by rewrite lookup_app_l by lia.
  - unfold readAt. by rewrite list_lookup_middle.
Qed.

Lemma forward_loop sem model xT yT p nn xs ys k : ∀ i cost acc s,
  s !! model = Some (Neuron nn) →
  s !! xT = Some (Array xs) →
  s !! yT = Some (Array ys) →
  s !! p = Some (Array acc) →
  p ≠ xT → p ≠ yT →
  (sem = Checked → i + k ≤ length xs ∧ i + k ≤ length ys) →
  forLoop k i (λ i cost,
    x <- arrayGet sem xT i ;;
    yPredicted <- predict model x ;;
    y <- arrayGet sem yT i ;;
    let cost := add cost (predictionCost y yPredicted) in
    arrayPush p yPredicted ;;;
    ret cost) cost s
  = Ok (fold_left
          (λ cost i, add cost (predictionCost (readAt ys i) (predictWith nn (readAt xs i))))
          (seq i k) cost)
       (<[p := Array (acc ++ map (λ j, predictWith nn (readAt xs j)) (seq i k))]> s).
Proof.
  induction k as [|k IH]; intros i cost acc s Hm Hx Hy Hp Hpx Hpy Hrange.
  - simpl. rewrite app_nil_r, insert_id by done. done.
  - cbn [forLoop seq fold_left map].
    assert (inRange sem i xs ∧ inRange sem i ys) as [Hix Hiy]
      by (split; intros E; specialize (Hrange E); lia).
    assert (p ≠ model) by congruence.
    erewrite bind_Ok.
    2:{ do 3 mstep eauto. cbv zeta. mstep eauto. reflexivity. }
    rewrite IH with (acc := acc ++ [predictWith nn (readAt xs i)]);
      rewrite ?lookup_insert_eq, ?lookup_insert_ne by done; try done.
    + by rewrite insert_insert_eq, <- app_assoc.
    + intros E; specialize (Hrange E); lia.
Qed.

(** The forward pass allocates the array of predictions and changes nothing
    else. *)
Lemma forwardPropagation_Ok sem model xT yT nn xs ys s :
  s !! model = Some (Neuron nn) →
  s !! xT = Some (Array xs) →
  s !! yT = Some (Array ys) →
  (sem = Checked → length xs ≤ length ys ∧ xs ≠ []) →
  forwardPropagation sem model xT yT s
  = Ok (mkForwardResult (fresh (dom s)) (averageCostOf nn xs ys))
       (<[fresh (dom s) := Array (predictionsOf nn xs)]> s).
Proof.
  intros Hm Hx Hy Hsafe. unfold forwardPropagation.
  mstep eauto.
  erewrite bind_Ok by reflexivity.
  pose proof (fresh_ne s _ _ Hm). pose proof (fresh_ne s _ _ Hx).
  pose proof (fresh_ne s _ _ Hy).
  erewrite bind_Ok.
  2:{ apply forward_loop with (nn := nn) (xs := xs) (ys := ys) (acc := []);
        rewrite ?lookup_insert_eq, ?lookup_insert_ne by done; try done.
      intros E. specialize (Hsafe E). lia. }
  rewrite insert_insert_eq. cbn [app]. rewrite map_readAt_seq.
  erewrite bind_Ok.
  2:{ apply divCount_Ok. intros E. destruct (Hsafe E) as [_ Hne].
      by destruct xs. }
  reflexivity.
Qed.

Lemma backward_loop sem pT xT yT ps xs ys k s : ∀ i deltas,
  s !! pT = Some (Array ps) →
  s !! xT = Some (Array xs) →
  s !! yT = Some (Array ys) →
  (sem = Checked → i + k ≤ length ps ∧ i + k ≤ length xs ∧ i + k ≤ length ys) →
  forLoop k i (λ i deltas,
    y <- arrayGet sem yT i ;;
    p <- arrayGet sem pT i ;;
    x <- arrayGet sem xT i ;;
    let deltaW := add (fst deltas) (mul (sub y p) x) in
    y' <- arrayGet sem yT i ;;
    p' <- arrayGet sem pT i ;;
    let deltaB := add (snd deltas) (sub y' p') in
    ret (deltaW, deltaB)) deltas s
  = Ok (fold_left
          (λ deltas i,
             (add (fst deltas) (mul (sub (readAt ys i) (readAt ps i)) (readAt xs i)),
              add (snd deltas) (sub (readAt ys i) (readAt ps i))))
          (seq i k) deltas) s.
Proof.
  induction k as [|k IH]; intros i deltas Hp Hx Hy Hrange; [done|].
  cbn [forLoop seq fold_left].
  assert (inRange sem i ps ∧ inRange sem i xs ∧ inRange sem i ys) as (Hip & Hix & Hiy)
    by (repeat split; intros E; specialize (Hrange E); lia).
  erewrite bind_Ok.
  2:{ do 3 mstep eauto. cbv zeta. do 2 mstep eauto. reflexivity. }
  apply IH; try done. intros E; specialize (Hrange E); lia.
Qed.

(** The backward pass only reads. *)
Lemma backwardPropagation_Ok sem pT xT yT ps xs ys s :
  s !! pT = Some (Array ps) →
  s !! xT = Some (Array xs) →
  s !! yT = Some (Array ys) →
  (sem = Checked → length xs ≤ length ps ∧ length xs ≤ length ys ∧ xs ≠ []) →
  backwardPropagation sem pT xT yT s = Ok (deltasOf ps xs ys) s.
Proof.
  intros Hp Hx Hy Hsafe. unfold backwardPropagation.
  mstep eauto.
  erewrite bind_Ok.
  2:{ apply backward_loop with (ps := ps) (xs := xs) (ys := ys); try done.
      intros E. specialize (Hsafe E). lia. }
  assert (sem = Checked → length xs ≠ 0).
  { intros E. destruct (Hsafe E) as (_ & _ & Hne). by destruct xs. }
  do 2 mstep eauto. reflexivity.
Qed.

Lemma trainEpoch_Ok sem model alpha xT yT h nn xs ys hist s :
  s !! model = Some (Neuron nn) →
  s !! xT = Some (Array xs) →
  s !! yT = Some (Array ys) →
  s !! h = Some (Array hist) →
  h ≠ xT → h ≠ yT →
  (sem = Checked → length xs ≤ length ys ∧ xs ≠ []) →
  trainEpoch sem model alpha xT yT h s
  = Ok () (<[model := Neuron (snd (epochOf alpha xs ys (hist, nn)))]>
            (<[h := Array (fst (epochOf alpha xs ys (hist, nn)))]>
               (<[fresh (dom s) := Array (predictionsOf nn xs)]> s))).
Proof.
  intros Hm Hx Hy Hh Hhx Hhy Hsafe. unfold trainEpoch.
  erewrite bind_Ok by (by eapply forwardPropagation_Ok).
  set (p := fresh (dom s)). cbn [averageCost predictions].
  assert (p ≠ model ∧ p ≠ xT ∧ p ≠ yT ∧ p ≠ h) as (? & ? & ? & ?)
    by (repeat split; by eapply fresh_ne).
  assert (h ≠ model) by congruence.
  mstep ltac:(lookups; eauto).
  erewrite bind_Ok.
  2:{ eapply backwardPropagation_Ok with (ps := predictionsOf nn xs);
        lookups; try done.
      intros E. destruct (Hsafe E). unfold predictionsOf.
      rewrite length_map. done. }
  mstep ltac:(lookups; eauto).
  mstep ltac:(lookups; eauto).
  mstep ltac:(lookups; eauto).
  erewrite setB_Ok by (lookups; eauto).
  by rewrite insert_insert_eq.
Qed.

Lemma epochs_length alpha xs ys k : ∀ hist nn,
  length (fst (Nat.iter k (epochOf alpha xs ys) (hist, nn))) = length hist + k.
Proof.
  induction k as [|k IH]; intros hist nn; [simpl; lia|].
  rewrite Nat.iter_succ_r. unfold epochOf at 2. cbn [fst snd].
  rewrite IH, length_app. simpl. lia.
Qed.

Lemma train_loop sem model alpha xT yT h xs ys k : ∀ i hist nn s,
  s !! model = Some (Neuron nn) →
  s !! xT = Some (Array xs) →
  s !! yT = Some (Array ys) →
  s !! h = Some (Array hist) →
  h ≠ xT → h ≠ yT →
  (sem = Checked → length xs ≤ length ys ∧ xs ≠ []) →
  ∃ s',
    forLoop k i (λ _ _, trainEpoch sem model alpha xT yT h) () s = Ok () s' ∧
    s' !! model = Some (Neuron (snd (Nat.iter k (epochOf alpha xs ys) (hist, nn)))) ∧
    s' !! h = Some (Array (fst (Nat.iter k (epochOf alpha xs ys) (hist, nn)))) ∧
    (∀ l o, s !! l = Some o → l ≠ model → l ≠ h → s' !! l = Some o).
Proof.
  induction k as [|k IH]; intros i hist nn s Hm Hx Hy Hh Hhx Hhy Hsafe.
  { exists s. by repeat split. }
  cbn [forLoop]. rewrite Nat.iter_succ_r.
  erewrite bind_Ok by (by eapply trainEpoch_Ok).
  set (st := epochOf alpha xs ys (hist, nn)).
  set (p := fresh (dom s)).
  assert (p ≠ model ∧ p ≠ xT ∧ p ≠ yT ∧ p ≠ h) as (? & ? & ? & ?)
    by (repeat split; by eapply fresh_ne).
  assert (h ≠ model ∧ xT ≠ model ∧ yT ≠ model) as (? & ? & ?)
    by (repeat split; congruence).
  destruct (IH (S i) (fst st) (snd st)
              (<[model := Neuron (snd st)]>
                 (<[h := Array (fst st)]>
                    (<[p := Array (predictionsOf nn xs)]> s))))
    as (s' & Hrun & Hm' & Hh' & Hframe); [by lookups ..|].
  exists s'. rewrite <- surjective_pairing in Hm', Hh'.
  repeat split; try done.
  intros l o Hl ? ?. apply Hframe; try done.
  assert (p ≠ l) by (by eapply fresh_ne). by lookups.
Qed.

(** The trainer: the history is a new array, the model is updated in place,
    and the objects the store had are otherwise as they were. *)
Lemma trainModel_Ok sem model epochs alpha xT yT nn xs ys s :
  s !! model = Some (Neuron nn) →
  s !! xT = Some (Array xs) →
  s !! yT = Some (Array ys) →
  (sem = Checked → length xs ≤ length ys ∧ xs ≠ []) →
  ∃ s',
    trainModel sem model epochs alpha xT yT s = Ok (fresh (dom s)) s' ∧
    s' !! model = Some (Neuron (snd (trainingOf epochs alpha xs ys nn))) ∧
    s' !! fresh (dom s) = Some (Array (fst (trainingOf epochs alpha xs ys nn))) ∧
    (∀ l o, s !! l = Some o → l ≠ model → s' !! l = Some o).
Proof.
  intros Hm Hx Hy Hsafe. unfold trainModel.
  erewrite bind_Ok by reflexivity.
  set (h := fresh (dom s)).
  assert (h ≠ model ∧ h ≠ xT ∧ h ≠ yT) as (? & ? & ?)
    by (repeat split; by eapply fresh_ne).
  destruct (train_loop sem model alpha xT yT h xs ys epochs 0 [] nn
              (<[h := Array []]> s)) as (s' & Hrun & Hm' & Hh' & Hframe);
    [by lookups ..|].
  exists s'. erewrite bind_Ok by exact Hrun.
  repeat split; try done.
  intros l o Hl ?. assert (h ≠ l) by (by eapply fresh_ne).
  apply Hframe; try done. by lookups.
Qed.

End Passes.

(** ** The trainer and its effects on the store *)

Section Trainer.
Context {T : Type} `{Number T}.
Implicit Types (s : gmap nat (object T)) (xs ys ps : list T) (nn : NanoNeuron T).

Lemma forLoop_last {A} (body : nat → A → M T A) k : ∀ i a s,
  forLoop (S k) i body a s = (a' <- forLoop k i body a ;; body (i + k) a') s.
Proof.
  induction k as [|k IH]; intros i a s.
  - cbn [forLoop]. unfold bind, ret. rewrite Nat.add_0_r.
    by destruct (body i a s).
  - transitivity (match body i a s with
                  | Ok a' s' => forLoop (S k) (S i) body a' s'
                  | Stop e => Stop e
                  end); [done|].
    transitivity (match
                    match body i a s with
                    | Ok a' s' => forLoop k (S i) body a' s'
                    | Stop e => Stop e
                    end
                  with
                  | Ok a' s' => body (i + S k) a' s'
                  | Stop e => Stop e
                  end); [|done].
    destruct (body i a s) as [a' s'|e]; [|done].
    rewrite IH. by replace (S i + k) with (i + S k) by lia.
Qed.

(** C1.  The trainer runs [epochs] iterations, each doing in order the forward
    pass on the model as it is, the append of the average cost to the history,
    the backward pass on that forward pass's predictions, and the update in
    place [w += averageDeltaW * alpha], [b += averageDeltaB * alpha]: training
    one epoch more is training and then these four steps, and on a store that
    holds the model and the two arrays the trainer returns a new array holding
    the costs of [epochs] iterations of the specification's loop, with the
    model at its reference updated as many times. *)
Theorem trainModel_iterations (model : nat) (epochs : nat) (alpha : T)
    (xT yT : nat) nn xs ys s :
  s !! model = Some (Neuron nn) →
  s !! xT = Some (Array xs) →
  s !! yT = Some (Array ys) →
  (∀ k s0,
     trainModel JS model (S k) alpha xT yT s0 =
     (costHistory <- trainModel JS model k alpha xT yT ;;
      fwd <- forwardPropagation JS model xT yT ;;
      arrayPush costHistory (averageCost fwd) ;;;
      bwd <- backwardPropagation JS (predictions fwd) xT yT ;;
      w0 <- getField w model ;;
      setW model (add w0 (mul (averageDeltaW bwd) alpha)) ;;;
      b0 <- getField b model ;;
      setB model (add b0 (mul (averageDeltaB bwd) alpha)) ;;;
      ret costHistory) s0) ∧
  ∃ costHistory s',
    trainModel JS model epochs alpha xT yT s = Ok costHistory s' ∧
    s !! costHistory = None ∧
    s' !! costHistory = Some (Array (fst (trainingOf epochs alpha xs ys nn))) ∧
    length (fst (trainingOf epochs alpha xs ys nn)) = epochs ∧
    s' !! model = Some (Neuron (snd (trainingOf epochs alpha xs ys nn))) ∧
    s' !! xT = Some (Array xs) ∧
    s' !! yT = Some (Array ys).
Proof.
  intros Hm Hx Hy. split.
  - intros k s0. unfold trainModel. cbv [bind ret newArray].
    rewrite forLoop_last. cbv [bind].
    destruct (forLoop k 0 _ () _) as [[] s1|e]; [|done].
    unfold trainEpoch. cbv [bind ret].
    repeat match goal with
           | |- context [match ?c with Ok _ _ => _ | Stop _ => _ end] =>
               lazymatch c with
               | context [match _ with Ok _ _ => _ | Stop _ => _ end] => fail
               | _ => destruct c; try done
               end
           end.
  - destruct (trainModel_Ok JS model epochs alpha xT yT nn xs ys s)
      as (s' & Hrun & Hm' & Hh' & Hframe); try done.
    exists (fresh (dom s)), s'. repeat split; try done.
    + apply fresh_lookup.
    + unfold trainingOf. by rewrite epochs_length.
    + apply Hframe; [done|congruence].
    + apply Hframe; [done|congruence].
Qed.

(** C8.  With [epochs = 0] the trainer returns a new, empty cost history and
    leaves the model, and every other object of the store, as it was. *)
Theorem trainModel_zero_epochs (sem : semantics) (model : nat) (alpha : T)
    (xT yT : nat) nn s :
  s !! model = Some (Neuron nn) →
  ∃ costHistory s',
    trainModel sem model 0 alpha xT yT s = Ok costHistory s' ∧
    s' !! costHistory = Some (Array []) ∧
    s' !! model = Some (Neuron nn) ∧
    (∀ l o, s !! l = Some o → s' !! l = Some o).
Proof.
  intros Hm. exists (fresh (dom s)), (<[fresh (dom s) := Array []]> s).
  assert (∀ l o, s !! l = Some o → <[fresh (dom s) := Array []]> s !! l = Some o).
  { intros l o Hl. pose proof (fresh_ne s l o Hl). by lookups. }
  repeat split; [by lookups|auto..].
Qed.

(** C9.  On a store that holds the model and the two arrays: [predict] returns
    [x * w + b] and the store as it was; the forward pass leaves every object
    the store had as it was (it adds the array of predictions); the backward
    pass, on these predictions or on any other array, returns the store as it
    was; and one round of the trainer changes the model once, at the update:
    after the forward pass, the append to the history and the backward pass
    the model is as before the round, and the round ends in that store with
    the model replaced by the updated one. *)
Theorem only_trainer_mutates (model xT yT : nat) nn xs ys s :
  s !! model = Some (Neuron nn) →
  s !! xT = Some (Array xs) →
  s !! yT = Some (Array ys) →
  (∀ x, predict model x s = Ok (add (mul x (w nn)) (b nn)) s) ∧
  (∃ fwd s1,
     forwardPropagation JS model xT yT s = Ok fwd s1 ∧
     (∀ l o, s !! l = Some o → s1 !! l = Some o) ∧
     ∃ bwd, backwardPropagation JS (predictions fwd) xT yT s1 = Ok bwd s1) ∧
  (∀ pT ps, s !! pT = Some (Array ps) →
     ∃ bwd, backwardPropagation JS pT xT yT s = Ok bwd s) ∧
  (∀ alpha h hist, s !! h = Some (Array hist) → h ≠ xT → h ≠ yT →
     ∃ fwd bwd s1,
       (fwd <- forwardPropagation JS model xT yT ;;
        arrayPush h (averageCost fwd) ;;;
        bwd <- backwardPropagation JS (predictions fwd) xT yT ;;
        ret (fwd, bwd)) s = Ok (fwd, bwd) s1 ∧
       s1 !! model = Some (Neuron nn) ∧
       s1 !! xT = Some (Array xs) ∧
       s1 !! yT = Some (Array ys) ∧
       trainEpoch JS model alpha xT yT h s
       = Ok () (<[model := Neuron (mkNanoNeuron
                                     (add (w nn) (mul (averageDeltaW bwd) alpha))
                                     (add (b nn) (mul (averageDeltaB bwd) alpha)))]> s1)).
Proof.
  intros Hm Hx Hy.
  set (p := fresh (dom s)).
  assert (p ≠ model ∧ p ≠ xT ∧ p ≠ yT) as (? & ? & ?)
    by (repeat split; by eapply fresh_ne).
  split; [|split; [|split]].
  - intros x. by apply predict_Ok.
  - eexists _, _. split; [by eapply forwardPropagation_Ok|]. split.
    + intros l o Hl. pose proof (fresh_ne s l o Hl). by lookups.
    + eexists. cbn [predictions].
      eapply backwardPropagation_Ok; by lookups.
  - intros pT ps Hp. eexists. by eapply backwardPropagation_Ok.
  - intros alpha h hist Hh Hhx Hhy.
    assert (p ≠ h) by (by eapply fresh_ne).
    assert (h ≠ model) by congruence.
    eexists _, _, _. split; [|split; [|split; [|split]]].
    + erewrite bind_Ok by (by eapply forwardPropagation_Ok).
      cbn [averageCost predictions]. fold p.
      mstep ltac:(lookups; eauto).
      erewrite bind_Ok; [reflexivity|].
      eapply backwardPropagation_Ok; by lookups.
    + by lookups.
    + by lookups.
    + by lookups.
    + by erewrite trainEpoch_Ok.
Qed.

(** C10.  On a store that holds a model, inputs and targets of one length, at
    least one, and predictions of that length, every index the loops read is
    within each of the three arrays, and both passes run to their end under
    the checked reading, which stops at a read out of range and at a division
    by a count of zero, with the results they have in JavaScript.  In
    JavaScript they run to their end on arrays of any lengths: nothing is
    validated. *)
Theorem passes_stay_in_bounds (model xT yT pT : nat) nn xs ys ps s :
  s !! model = Some (Neuron nn) →
  s !! xT = Some (Array xs) →
  s !! yT = Some (Array ys) →
  s !! pT = Some (Array ps) →
  xs ≠ [] →
  length xs = length ys →
  length ps = length xs →
  (∀ i, i < length xs → is_Some (xs !! i) ∧ is_Some (ys !! i) ∧ is_Some (ps !! i)) ∧
  (∃ fwd s', forwardPropagation Checked model xT yT s = Ok fwd s' ∧
             forwardPropagation JS model xT yT s = Ok fwd s') ∧
  (∃ bwd, backwardPropagation Checked pT xT yT s = Ok bwd s ∧
          backwardPropagation JS pT xT yT s = Ok bwd s) ∧
  (∀ s0 nn0 xs0 ys0 ps0,
     s0 !! model = Some (Neuron nn0) →
     s0 !! xT = Some (Array xs0) →
     s0 !! yT = Some (Array ys0) →
     s0 !! pT = Some (Array ps0) →
     (∃ fwd s', forwardPropagation JS model xT yT s0 = Ok fwd s') ∧
     (∃ bwd, backwardPropagation JS pT xT yT s0 = Ok bwd s0)).
Proof.
  intros Hm Hx Hy Hp Hne Hxy Hpx. split; [|split; [|split]].
  - intros i Hi. repeat split; apply lookup_lt_is_Some; lia.
  - eexists _, _. split; eapply forwardPropagation_Ok; try done.
    intros _. split; [lia|done].
  - eexists. split; eapply backwardPropagation_Ok; try done.
    intros _. repeat split; [lia|lia|done].
  - intros s0 nn0 xs0 ys0 ps0 Hm0 Hx0 Hy0 Hp0. split.
    + eexists _, _. by eapply forwardPropagation_Ok.
    + eexists. by eapply backwardPropagation_Ok.
Qed.

End Trainer.

Lemma trainModel_iterations_witness :
  ∃ costHistory s',
    trainModel JS 0 2 0.5%float 1 2 sampleStore = Ok costHistory s' ∧
    s' !! costHistory = Some (Array [4.78125%float; 2.4345703125%float]) ∧
    s' !! 0 = Some (Neuron (mkNanoNeuron 1.203125%float 0.671875%float)).
Proof.
  destruct (trainModel_iterations 0 2 0.5%float 1 2
              (mkNanoNeuron 0.5%float 0.25%float)
              [1%float; 2%float] [3%float; 5%float] sampleStore
              eq_refl eq_refl eq_refl)
    as (_ & h & s' & Hrun & _ & Hh & _ & Hm & _).
  exists h, s'. repeat split; [exact Hrun | exact Hh | exact Hm].
Defined.

Lemma trainModel_zero_epochs_witness :
  ∃ costHistory s',
    trainModel JS 0 0 0.5%float 1 2 sampleStore = Ok costHistory s' ∧
    s' !! costHistory = Some (Array []) ∧
    s' !! 0 = Some (Neuron (mkNanoNeuron 0.5%float 0.25%float)).
Proof.
  destruct (trainModel_zero_epochs JS 0 0.5%float 1 2
              (mkNanoNeuron 0.5%float 0.25%float) sampleStore eq_refl)
    as (h & s' & Hrun & Hh & Hm & _).
  exists h, s'. repeat split; [exact Hrun | exact Hh | exact Hm].
Defined.

Lemma only_trainer_mutates_witness :
  predict 0 2%float sampleStore = Ok 1.25%float sampleStore ∧
  ∃ bwd, backwardPropagation JS 3 1 2 sampleStore = Ok bwd sampleStore.
Proof.
  destruct (only_trainer_mutates 0 1 2 (mkNanoNeuron 0.5%float 0.25%float)
              [1%float; 2%float] [3%float; 5%float] sampleStore
              eq_refl eq_refl eq_refl)
    as (Hpredict & _ & Hbackward & _).
  split; [exact (Hpredict 2%float)|].
  exact (Hbackward 3 [0.75%float; 1.25%float] eq_refl).
Defined.

Lemma passes_stay_in_bounds_witness :
  ∃ bwd, backwardPropagation Checked 3 1 2 sampleStore = Ok bwd sampleStore ∧
         backwardPropagation JS 3 1 2 sampleStore = Ok bwd sampleStore.
Proof.
  refine (proj1 (proj2 (proj2
    (passes_stay_in_bounds 0 1 2 3 (mkNanoNeuron 0.5%float 0.25%float)
       [1%float; 2%float] [3%float; 5%float] [0.75%float; 1.25%float]
       sampleStore eq_refl eq_refl eq_refl eq_refl _ eq_refl eq_refl)))).
  discriminate.
Defined.

(** The checked reading does stop: at targets shorter than the inputs, and at
    an empty sample set, where JavaScript goes on with [NaN]. *)
Example checked_stops_out_of_range :
  forwardPropagation Checked 0 1 3 (<[3 := Array [3%float]]> sampleStore)
  = Stop OutOfRange.
Proof. reflexivity. Qed.

Example checked_stops_division_by_zero :
  forwardPropagation Checked 0 1 1 (<[1 := Array []]> sampleStore)
  = Stop DivisionByZero.
Proof. reflexivity. Qed.

Example javascript_goes_on_with_NaN :
  forwardPropagation JS 0 1 1 (<[1 := Array []]> sampleStore)
  = Ok (mkForwardResult 4 PrimFloat.nan)
       (<[4 := Array []]> (<[1 := Array []]> sampleStore)).
Proof. reflexivity. Qed.

(** ** The formulas, over the real numbers *)

Section RealFormulas.
Context (nan : R).
#[local] Hint Extern 0 (Number R) => exact (RealNumber nan) : typeclass_instances.
Implicit Types (s : gmap nat (object R)) (xs ys ps : list R).
Local Open Scope R_scope.

Lemma sigma_ext m (f g : nat → R) :
  (∀ i, (i < m)%nat → f i = g i) → sigma m f = sigma m g.
Proof.
  induction m as [|m IH]; intros Hfg; [done|].
  simpl. rewrite IH, Hfg by (intros; try apply Hfg; lia). done.
Qed.

Lemma fold_sigma m (f : nat → R) c :
  fold_left (λ acc i, acc + f i) (seq 0 m) c = c + sigma m f.
Proof.
  induction m as [|m IH]; [simpl; lra|].
  rewrite seq_S, fold_left_app, IH. simpl. lra.
Qed.

Lemma fold_sigma_pair m (f g : nat → R) c d :
  fold_left (λ acc i, (fst acc + f i, snd acc + g i)) (seq 0 m) (c, d)
  = (c + sigma m f, d + sigma m g).
Proof.
  induction m as [|m IH]; [simpl; f_equal; lra|].
  rewrite seq_S, fold_left_app, IH. simpl. f_equal; lra.
Qed.

Lemma readAt_nth l i : (i < length l)%nat → readAt l i = nth i l 0.
Proof.
  intros Hi. unfold readAt. rewrite nth_lookup.
  by destruct (lookup_lt_is_Some_2 l i Hi) as [x ->].
Qed.

Lemma count_nonzero xs : xs ≠ [] → INR (length xs) ≠ 0.
Proof. intros Hne. apply not_0_INR. by destruct xs. Qed.

Lemma averageCostOf_sigma nn xs ys :
  xs ≠ [] → length xs = length ys →
  averageCostOf nn xs ys
  = 1 / INR (length xs)
    * sigma (length xs) (λ i, (nth i ys 0 - (nth i xs 0 * w nn + b nn)) ^ 2 / 2).
Proof.
  intros Hne Hlen. unfold averageCostOf, costSum.
  cbn [add sub mul div sqr ofZ RealNumber].
  rewrite (fold_sigma _ (λ i, predictionCost (readAt ys i) (predictWith nn (readAt xs i)))).
  rewrite <- INR_IZR_INZ.
  rewrite (sigma_ext _ _ (λ i, (nth i ys 0 - (nth i xs 0 * w nn + b nn)) ^ 2 / 2)).
  - pose proof (count_nonzero xs Hne). field. done.
  - intros i Hi. rewrite !readAt_nth by lia. done.
Qed.

Lemma deltasOf_sigma ps xs ys :
  xs ≠ [] →
  averageDeltaW (deltasOf ps xs ys)
  = 1 / INR (length xs)
    * sigma (length xs) (λ i, (readAt ys i - readAt ps i) * readAt xs i) ∧
  averageDeltaB (deltasOf ps xs ys)
  = 1 / INR (length xs) * sigma (length xs) (λ i, readAt ys i - readAt ps i).
Proof.
  intros Hne. unfold deltasOf, deltaSums.
  cbn [add sub mul div ofZ RealNumber averageDeltaW averageDeltaB].
  rewrite (fold_sigma_pair _ (λ i, (readAt ys i - readAt ps i) * readAt xs i)
                             (λ i, readAt ys i - readAt ps i)).
  rewrite <- INR_IZR_INZ. cbn [fst snd].
  pose proof (count_nonzero xs Hne). split; field; done.
Qed.

(** C2.  For a model with parameters [w0] and [b0] and a sample set of [m]
    inputs and [m] targets, [m] at least one, the forward pass returns an
    array of [m] predictions, the one at [i] being [inputs[i] * w0 + b0], and
    the average cost [(1/m) * Σ (targets[i] - predictions[i])^2 / 2]. *)
Theorem forwardPropagation_formula (sem : semantics) (model xT yT : nat)
    (w0 b0 : R) xs ys s :
  s !! model = Some (Neuron (mkNanoNeuron w0 b0)) →
  s !! xT = Some (Array xs) →
  s !! yT = Some (Array ys) →
  xs ≠ [] →
  length xs = length ys →
  ∃ fwd s' ps,
    forwardPropagation sem model xT yT s = Ok fwd s' ∧
    s' !! predictions fwd = Some (Array ps) ∧
    length ps = length xs ∧
    (∀ i x, xs !! i = Some x → ps !! i = Some (x * w0 + b0)) ∧
    averageCost fwd
    = 1 / INR (length xs)
      * sigma (length xs) (λ i, (nth i ys 0 - nth i ps 0) ^ 2 / 2).
Proof.
  intros Hm Hx Hy Hne Hlen.
  eexists _, _, _. split; [|split; [|split; [|split]]].
  - eapply forwardPropagation_Ok; try done. intros _. split; [lia|done].
  - cbn [predictions]. by lookups.
  - unfold predictionsOf. by rewrite length_map.
  - intros i x Hi. unfold predictionsOf. rewrite list_lookup_fmap, Hi. done.
  - cbn [averageCost]. rewrite averageCostOf_sigma by done.
    f_equal. apply sigma_ext. intros i Hi. cbn [w b].
    unfold predictionsOf.
    rewrite (nth_indep (map _ xs) 0 (predictWith (mkNanoNeuron w0 b0) 0))
      by (rewrite length_map; lia).
    by rewrite map_nth.
Qed.

(** C3.  For predictions, inputs and targets of one length [m], at least one,
    the backward pass returns
    [averageDeltaW = (1/m) * Σ (targets[i] - predictions[i]) * inputs[i]] and
    [averageDeltaB = (1/m) * Σ (targets[i] - predictions[i])]. *)
Theorem backwardPropagation_formula (sem : semantics) (pT xT yT : nat)
    ps xs ys s :
  s !! pT = Some (Array ps) →
  s !! xT = Some (Array xs) →
  s !! yT = Some (Array ys) →
  xs ≠ [] →
  length xs = length ys →
  length ps = length xs →
  ∃ bwd,
    backwardPropagation sem pT xT yT s = Ok bwd s ∧
    averageDeltaW bwd
    = 1 / INR (length xs)
      * sigma (length xs) (λ i, (nth i ys 0 - nth i ps 0) * nth i xs 0) ∧
    averageDeltaB bwd
    = 1 / INR (length xs)
      * sigma (length xs) (λ i, nth i ys 0 - nth i ps 0).
Proof.
  intros Hp Hx Hy Hne Hxy Hpx.
  eexists. split; [|split].
  - eapply backwardPropagation_Ok; try done.
    intros _. repeat split; [lia|lia|done].
  - rewrite (proj1 (deltasOf_sigma ps xs ys Hne)). f_equal.
    apply sigma_ext. intros i Hi. by rewrite !readAt_nth by lia.
  - rewrite (proj2 (deltasOf_sigma ps xs ys Hne)). f_equal.
    apply sigma_ext. intros i Hi. by rewrite !readAt_nth by lia.
Qed.

Lemma sigma_nonneg m (f : nat → R) :
  (∀ i, (i < m)%nat → 0 <= f i) → 0 <= sigma m f.
Proof.
  induction m as [|m IH]; intros Hf; simpl; [lra|].
  assert (0 <= sigma m f) by (apply IH; intros; apply Hf; lia).
  assert (0 <= f m) by (apply Hf; lia). lra.
Qed.


Lemma sigma_opp m (f : nat → R) : sigma m (λ i, - f i) = - sigma m f.
Proof. induction m as [|m IH]; simpl; [lra|]. rewrite IH. lra. Qed.


(** *** The deltas as derivatives of the cost *)

Lemma derivable_pt_lim_ext (f g : R → R) x l :
  (∀ t, f t = g t) → derivable_pt_lim f x l → derivable_pt_lim g x l.
Proof.
  intros Hfg Hf eps Heps. destruct (Hf eps Heps) as [delta Hdelta].
  exists delta. intros h Hh Hlt. rewrite <- !Hfg. by apply Hdelta.
Qed.

Lemma half_square_derivative c u v t0 :
  derivable_pt_lim (λ t, (c - (u * t + v)) ^ 2 / 2) t0 (- ((c - (u * t0 + v)) * u)).
Proof.
  intros eps Heps.
  assert (0 < u ^ 2 + 1) as Hden by nra.
  assert (0 < eps / (u ^ 2 + 1)) as Hdelta by (by apply Rdiv_lt_0_compat).
  exists (mkposreal _ Hdelta). intros h Hh Hlt. cbn [pos] in Hlt.
  replace (((c - (u * (t0 + h) + v)) ^ 2 / 2 - (c - (u * t0 + v)) ^ 2 / 2) / h
           - - ((c - (u * t0 + v)) * u))
    with (u ^ 2 / 2 * h) by (field; done).
  rewrite Rabs_mult, (Rabs_pos_eq (u ^ 2 / 2)) by nra.
  assert (Rabs h * (u ^ 2 + 1) < eps).
  { apply (Rmult_lt_compat_r (u ^ 2 + 1)) in Hlt; [|done].
    replace (eps / (u ^ 2 + 1) * (u ^ 2 + 1)) with eps in Hlt by (field; lra).
    done. }
  pose proof (Rabs_pos h). nra.
Qed.

Lemma sigma_derivative m (f : R → nat → R) (f' : nat → R) t0 :
  (∀ i, (i < m)%nat → derivable_pt_lim (λ t, f t i) t0 (f' i)) →
  derivable_pt_lim (λ t, sigma m (f t)) t0 (sigma m f').
Proof.
  induction m as [|m IH]; intros Hf; cbn [sigma].
  - apply (derivable_pt_lim_const 0).
  - apply (derivable_pt_lim_plus (λ t, sigma m (f t)) (λ t, f t m)).
    + apply IH. intros i Hi. apply Hf. lia.
    + apply Hf. lia.
Qed.

(** C4.  For a model with parameters [w0] and [b0] and a sample set of at
    least one sample, the backward pass on the predictions of the forward
    pass returns the negated partial derivatives, at [w0] and [b0], of the
    average cost that the forward pass reports as a function of the model's
    [w] and of its [b]. *)
Theorem deltas_negate_cost_gradient (sem : semantics) (model xT yT : nat)
    (w0 b0 : R) xs ys s :
  s !! model = Some (Neuron (mkNanoNeuron w0 b0)) →
  s !! xT = Some (Array xs) →
  s !! yT = Some (Array ys) →
  xs ≠ [] →
  length xs = length ys →
  let cost := λ w1 b1,
    reportedCost nan (forwardPropagation sem model xT yT
                    (<[model := Neuron (mkNanoNeuron w1 b1)]> s)) in
  ∃ fwd s1 bwd,
    forwardPropagation sem model xT yT s = Ok fwd s1 ∧
    backwardPropagation sem (predictions fwd) xT yT s1 = Ok bwd s1 ∧
    derivable_pt_lim (λ w1, cost w1 b0) w0 (- averageDeltaW bwd) ∧
    derivable_pt_lim (λ b1, cost w0 b1) b0 (- averageDeltaB bwd).
Proof.
  intros Hm Hx Hy Hne Hlen cost.
  assert (xT ≠ model ∧ yT ≠ model) as [? ?] by (split; congruence).
  assert (Checked = Checked → (length xs ≤ length ys)%nat ∧ xs ≠ []) as Hsafe
    by (intros _; split; [lia|done]).
  assert (∀ w1 b1,
    cost w1 b1 = 1 / INR (length xs)
      * sigma (length xs) (λ i, (nth i ys 0 - (nth i xs 0 * w1 + b1)) ^ 2 / 2))
    as Hcost.
  { intros w1 b1. unfold cost.
    erewrite forwardPropagation_Ok; [|by lookups..|intros _; by apply Hsafe].
    cbn [reportedCost averageCost]. by rewrite averageCostOf_sigma. }
  set (p := fresh (dom s)).
  assert (p ≠ xT ∧ p ≠ yT) as [? ?] by (split; by eapply fresh_ne).
  eexists _, _, _. split; [|split; [|split]].
  - eapply forwardPropagation_Ok; try done. intros _. by apply Hsafe.
  - cbn [predictions]. eapply backwardPropagation_Ok; lookups; try done.
    intros _. unfold predictionsOf. rewrite length_map.
    repeat split; [lia|lia|done].
  - rewrite (proj1 (deltasOf_sigma _ xs ys Hne)).
    apply (derivable_pt_lim_ext
             (λ w1, 1 / INR (length xs)
                    * sigma (length xs)
                        (λ i, (nth i ys 0 - (nth i xs 0 * w1 + b0)) ^ 2 / 2)));
      [intros; by rewrite Hcost|].
    rewrite Ropp_mult_distr_r, <- sigma_opp.
    apply (derivable_pt_lim_scal
             (λ w1, sigma (length xs)
                      (λ i, (nth i ys 0 - (nth i xs 0 * w1 + b0)) ^ 2 / 2))).
    erewrite sigma_ext; [apply sigma_derivative|].
    + intros i Hi. apply half_square_derivative.
    + intros i Hi. cbn beta. rewrite !readAt_nth by lia.
      unfold readAt, predictionsOf. rewrite list_lookup_fmap.
      destruct (lookup_lt_is_Some_2 xs i Hi) as [x Hxi]. rewrite Hxi.
      rewrite (nth_lookup_Some _ _ _ _ Hxi). done.
  - rewrite (proj2 (deltasOf_sigma _ xs ys Hne)).
    apply (derivable_pt_lim_ext
             (λ b1, 1 / INR (length xs)
                    * sigma (length xs)
                        (λ i, (nth i ys 0 - (1 * b1 + nth i xs 0 * w0)) ^ 2 / 2))).
    { intros b1. rewrite Hcost. f_equal. apply sigma_ext. intros i _.
      f_equal. f_equal. lra. }
    rewrite Ropp_mult_distr_r, <- sigma_opp.
    apply (derivable_pt_lim_scal
             (λ b1, sigma (length xs)
                      (λ i, (nth i ys 0 - (1 * b1 + nth i xs 0 * w0)) ^ 2 / 2))).
    erewrite sigma_ext; [apply sigma_derivative|].
    + intros i Hi. apply half_square_derivative.
    + intros i Hi. cbn beta. rewrite !readAt_nth by lia.
      unfold readAt, predictionsOf. rewrite list_lookup_fmap.
      destruct (lookup_lt_is_Some_2 xs i Hi) as [x Hxi]. rewrite Hxi.
      rewrite (nth_lookup_Some _ _ _ _ Hxi). simpl.
      unfold predictWith. cbn [w b mul add RealNumber]. lra.
Qed.

End RealFormulas.

Lemma forwardPropagation_formula_witness :
  ∃ fwd s' ps,
    forwardPropagation (H := RealNumber 0) JS 0 1 2 realStore = Ok fwd s' ∧
    s' !! predictions fwd = Some (Array ps) ∧
    length ps = 2 ∧
    averageCost fwd
    = (1 / INR 2 * sigma 2 (λ i, (nth i [4; 7] 0 - nth i ps 0) ^ 2 / 2))%R.
Proof.
  destruct (forwardPropagation_formula 0 JS 0 1 2 2 1 [1%R; 2%R] [4%R; 7%R]
              realStore eq_refl eq_refl eq_refl ltac:(discriminate) eq_refl)
    as (fwd & s' & ps & Hrun & Hps & Hlen & _ & Hcost).
  exists fwd, s', ps. repeat split; [exact Hrun|exact Hps|exact Hlen|exact Hcost].
Defined.

Lemma backwardPropagation_formula_witness :
  ∃ bwd,
    backwardPropagation (H := RealNumber 0) JS 3 1 2 realStore = Ok bwd realStore ∧
    averageDeltaB bwd
    = (1 / INR 2 * sigma 2 (λ i, nth i [4; 7] 0 - nth i [3; 5] 0))%R.
Proof.
  destruct (backwardPropagation_formula 0 JS 3 1 2 [3%R; 5%R] [1%R; 2%R] [4%R; 7%R]
              realStore eq_refl eq_refl eq_refl ltac:(discriminate) eq_refl eq_refl)
    as (bwd & Hrun & _ & HdB).
  exists bwd. split; [exact Hrun|exact HdB].
Defined.

Lemma deltas_negate_cost_gradient_witness :
  ∃ fwd s1 bwd,
    forwardPropagation (H := RealNumber 0) JS 0 1 2 realStore = Ok fwd s1 ∧
    backwardPropagation (H := RealNumber 0) JS (predictions fwd) 1 2 s1 = Ok bwd s1 ∧
    derivable_pt_lim
      (λ w1, reportedCost 0
               (forwardPropagation (H := RealNumber 0) JS 0 1 2
                  (<[0 := Neuron (mkNanoNeuron w1 1%R)]> realStore)))
      2%R (- averageDeltaW bwd)%R.
Proof.
  destruct (deltas_negate_cost_gradient 0 JS 0 1 2 2 1 [1%R; 2%R] [4%R; 7%R]
              realStore eq_refl eq_refl eq_refl ltac:(discriminate) eq_refl)
    as (fwd & s1 & bwd & Hfwd & Hbwd & HdW & _).
  exists fwd, s1, bwd. repeat split; [exact Hfwd|exact Hbwd|exact HdW].
Defined.




(** The same input in binary64. *)
Example gradient_sign_in_binary64 :
  backwardPropagation JS 3 1 2
    ({[ 1 := Array [(-1)%float]; 2 := Array [1%float]; 3 := Array [0%float] ]}
       : gmap nat (object float))
  = Ok (mkBackwardResult 1%float (-1)%float)
       {[ 1 := Array [(-1)%float]; 2 := Array [1%float]; 3 := Array [0%float] ]}.
Proof. reflexivity. Qed.

(** In binary64 the strict signs hold only as far as rounding lets them,
    also for inputs that are not negative.  A product below the smallest
    positive number is rounded to zero: with input, target [1e-200] and
    prediction [0] the prediction is below the target and the input is
    positive, and [averageDeltaW] is [0]. *)
Example gradient_sign_underflows_in_binary64 :
  PrimFloat.ltb 0%float 1e-200%float = true ∧
  backwardPropagation JS 3 1 2
    ({[ 1 := Array [1e-200%float]; 2 := Array [1e-200%float];
        3 := Array [0%float] ]} : gmap nat (object float))
  = Ok (mkBackwardResult 1e-200%float 0%float)
       {[ 1 := Array [1e-200%float]; 2 := Array [1e-200%float];
          3 := Array [0%float] ]}.
Proof. split; reflexivity. Qed.

(** A difference beyond the largest number is rounded to infinity, and
    infinity times a zero input is [NaN]: with inputs [0, 1], targets
    [1e308, 1] and predictions [-1e308, 0] both predictions are below their
    targets, no input is negative and one is positive, and [averageDeltaW]
    is [NaN] while [averageDeltaB] is infinity. *)
Example gradient_sign_overflows_in_binary64 :
  PrimFloat.ltb (-1e308)%float 1e308%float = true ∧
  PrimFloat.ltb 0%float 1%float = true ∧
  backwardPropagation JS 3 1 2
    ({[ 1 := Array [0%float; 1%float]; 2 := Array [1e308%float; 1%float];
        3 := Array [(-1e308)%float; 0%float] ]} : gmap nat (object float))
  = Ok (mkBackwardResult PrimFloat.infinity PrimFloat.nan)
       {[ 1 := Array [0%float; 1%float]; 2 := Array [1e308%float; 1%float];
          3 := Array [(-1e308)%float; 0%float] ]}.
Proof. repeat split; reflexivity. Qed.

(** ** The data sets *)

Section DataSetsOnStore.
Context {T : Type} `{Number T}.
Implicit Types (s : gmap nat (object T)) (vals xs ys : list T).

Lemma numberRange_more fuel : ∀ fuel' x bound step vals,
  numberRange fuel x bound step = Some vals →
  fuel ≤ fuel' →
  numberRange fuel' x bound step = Some vals.
Proof.
  induction fuel as [|fuel IH]; intros fuel' x bound step vals Hrange Hle; [done|].
  destruct fuel' as [|fuel']; [lia|]. cbn [numberRange] in *.
  destruct (ltb x bound); [|done].
  destruct (numberRange fuel _ _ _) as [vals'|] eqn:E; [|done].
  by rewrite (IH fuel' _ _ _ vals' E) by lia.
Qed.

Lemma forNumber_forEach fuel body : ∀ x bound step vals s,
  numberRange fuel x bound step = Some vals →
  forNumber fuel x bound step body s = forEach vals body s.
Proof.
  induction fuel as [|fuel IH]; intros x bound step vals s Hrange; [done|].
  cbn [numberRange forNumber] in *.
  destruct (ltb x bound); [|by injection Hrange as <-].
  destruct (numberRange fuel _ _ _) as [vals'|] eqn:E; [|done].
  injection Hrange as <-. cbn [forEach]. unfold bind.
  destruct (body x s) as [[] s'|e]; [|done]. by apply IH.
Qed.

Lemma push_each xa ya (f : T → T) vals : ∀ xs ys s,
  s !! xa = Some (Array xs) →
  s !! ya = Some (Array ys) →
  xa ≠ ya →
  forEach vals (λ x, let y := f x in arrayPush xa x ;;; arrayPush ya y) s
  = Ok () (<[ya := Array (ys ++ map f vals)]> (<[xa := Array (xs ++ vals)]> s)).
Proof.
  induction vals as [|v vals IH]; intros xs ys s Hx Hy Hne.
  - cbn [forEach map ret]. rewrite !app_nil_r.
    rewrite (insert_id s xa) by done. by rewrite insert_id.
  - cbn [forEach map]. cbv zeta.
    erewrite bind_Ok.
    2:{ mstep eauto. eapply arrayPush_Ok. by lookups. }
    rewrite (IH (xs ++ [v]) (ys ++ [f v])) by (by lookups).
    rewrite <- !app_assoc. cbn [app]. f_equal.
    apply map_eq. intros l.
    destruct (decide (l = ya)) as [->|]; [by lookups|].
    destruct (decide (l = xa)) as [->|]; by lookups.
Qed.

(** The generator allocates four arrays and fills them; what the store had
    stays. *)
Lemma generateDataSets_Ok fuel trainIn testIn s :
  numberRange fuel (ofZ 0) (ofZ 100) (ofZ 1) = Some trainIn →
  numberRange fuel (ofDec 0.5) (ofZ 100) (ofZ 1) = Some testIn →
  ∃ sets s',
    generateDataSets fuel s = Ok sets s' ∧
    s' !! xTrain sets = Some (Array trainIn) ∧
    s' !! yTrain sets = Some (Array (map celsiusToFahrenheit trainIn)) ∧
    s' !! xTest sets = Some (Array testIn) ∧
    s' !! yTest sets = Some (Array (map celsiusToFahrenheit testIn)) ∧
    (∀ l o, s !! l = Some o → s' !! l = Some o).
Proof.
  intros Htrain Htest. unfold generateDataSets.
  erewrite bind_Ok by reflexivity. set (r0 := fresh (dom s)).
  set (s0 := <[r0 := Array []]> s).
  erewrite bind_Ok by reflexivity. set (r1 := fresh (dom s0)).
  set (s1 := <[r1 := Array []]> s0).
  assert (r1 ≠ r0) by (eapply fresh_ne; subst s0; by lookups).
  erewrite bind_Ok.
  2:{ erewrite forNumber_forEach by done.
      apply push_each with (xs := []) (ys := []); subst s1 s0; by lookups. }
  cbn [app].
  set (s2 := <[r1 := _]> (<[r0 := _]> s1)).
  erewrite bind_Ok by reflexivity. set (r2 := fresh (dom s2)).
  set (s3 := <[r2 := Array []]> s2).
  erewrite bind_Ok by reflexivity. set (r3 := fresh (dom s3)).
  set (s4 := <[r3 := Array []]> s3).
  assert (r3 ≠ r2) by (eapply fresh_ne; subst s3; by lookups).
  assert (r2 ≠ r0 ∧ r2 ≠ r1) as [? ?]
    by (split; eapply fresh_ne; subst s2; by lookups).
  assert (r3 ≠ r0 ∧ r3 ≠ r1) as [? ?]
    by (split; eapply fresh_ne; subst s3 s2; by lookups).
  erewrite bind_Ok.
  2:{ erewrite forNumber_forEach by done.
      apply push_each with (xs := []) (ys := []); subst s4 s3; by lookups. }
  cbn [app]. eexists _, _. split; [reflexivity|].
  cbn [xTrain yTrain xTest yTest].
  repeat split; try (subst s4 s3 s2 s1 s0; by lookups).
  intros l o Hl.
  assert (r0 ≠ l) by (by eapply fresh_ne).
  assert (r1 ≠ l) by (eapply fresh_ne; subst s0; by lookups).
  assert (r2 ≠ l) by (eapply fresh_ne; subst s2 s1 s0; by lookups).
  assert (r3 ≠ l) by (eapply fresh_ne; subst s3 s2 s1 s0; by lookups).
  subst s4 s3 s2 s1 s0. by lookups.
Qed.

End DataSetsOnStore.

(** ** The data sets, in binary64 *)

Lemma memberOf_elem x l : x ∈ l → memberOf x l = true.
Proof.
  unfold memberOf. intros Hx. apply existsb_exists. exists x.
  split; [by apply list_elem_of_In|]. by apply FloatAxioms.Leibniz.eqb_spec.
Qed.

Lemma trainingGrid_range :
  numberRange 101 (ofZ 0) (ofZ 100) (ofZ 1) = Some trainingGrid.
Proof. vm_compute. reflexivity. Qed.

Lemma testGrid_range :
  numberRange 101 (ofDec 0.5) (ofZ 100) (ofZ 1) = Some testGrid.
Proof. vm_compute. reflexivity. Qed.

Lemma grids_disjoint :
  forallb (λ x, negb (memberOf x trainingGrid)) testGrid = true.
Proof. vm_compute. reflexivity. Qed.

(** C6.  The generator has no input but the store it allocates in, and on
    every store returns four new arrays: training inputs the 100 integers
    [0 .. 99] in increasing order, test inputs the 100 values
    [0.5, 1.5 .. 99.5], the targets of each set [x * 1.8 + 32] for the input
    [x] at the same index, and no test input among the training inputs. *)
Theorem generateDataSets_contents (fuel : nat) (s : gmap nat (object float)) :
  101 ≤ fuel →
  ∃ sets s' trainInputs trainTargets testInputs testTargets,
    generateDataSets fuel s = Ok sets s' ∧
    s' !! xTrain sets = Some (Array trainInputs) ∧
    s' !! yTrain sets = Some (Array trainTargets) ∧
    s' !! xTest sets = Some (Array testInputs) ∧
    s' !! yTest sets = Some (Array testTargets) ∧
    trainInputs = map (λ k, floatOfZ (Z.of_nat k)) (seq 0 100) ∧
    testInputs = map (λ k, PrimFloat.add (floatOfZ (Z.of_nat k)) 0.5%float) (seq 0 100) ∧
    trainTargets = map (λ x, PrimFloat.add (PrimFloat.mul x 1.8%float) 32%float) trainInputs ∧
    testTargets = map (λ x, PrimFloat.add (PrimFloat.mul x 1.8%float) 32%float) testInputs ∧
    (∀ x, x ∈ testInputs → x ∉ trainInputs).
Proof.
  intros Hfuel.
  destruct (generateDataSets_Ok fuel trainingGrid testGrid s)
    as (sets & s' & Hrun & HxTrain & HyTrain & HxTest & HyTest & _).
  { by apply (numberRange_more 101 fuel _ _ _ _ trainingGrid_range). }
  { by apply (numberRange_more 101 fuel _ _ _ _ testGrid_range). }
  exists sets, s', trainingGrid, (map celsiusToFahrenheit trainingGrid),
    testGrid, (map celsiusToFahrenheit testGrid).
  repeat split; try done.
  intros x Htest Htrain.
  pose proof grids_disjoint as Hdisjoint.
  rewrite forallb_forall in Hdisjoint.
  specialize (Hdisjoint x (proj1 (list_elem_of_In _ _) Htest)).
  by rewrite (memberOf_elem _ _ Htrain) in Hdisjoint.
Qed.

Lemma generateDataSets_contents_witness :
  ∃ sets s',
    generateDataSets 101 (∅ : gmap nat (object float)) = Ok sets s' ∧
    s' !! xTrain sets
    = Some (Array (map (λ k, floatOfZ (Z.of_nat k)) (seq 0 100))).
Proof.
  destruct (generateDataSets_contents 101 ∅ (le_n 101))
    as (sets & s' & trainInputs & ? & ? & ? & Hrun & HxTrain & _ & _ & _ & -> & _).
  exists sets, s'. split; [exact Hrun|exact HxTrain].
Defined.

(** ** The model after training *)

Section TrainedModel.
Context {T : Type} `{Number T}.
Implicit Types (xs ys : list T) (nn : NanoNeuron T).

Lemma trainingOf_model epochs alpha xs ys nn :
  snd (trainingOf epochs alpha xs ys nn) = Nat.iter epochs (stepOf alpha xs ys) nn.
Proof.
  unfold trainingOf. induction epochs as [|k IH]; [done|].
  rewrite !Nat.iter_succ, <- IH. done.
Qed.

Lemma deltaScan_sums nn xs : ∀ ys xs0 ys0 deltas,
  length xs0 = length ys0 →
  length xs = length ys →
  fold_left
    (λ deltas i,
       (add (fst deltas)
          (mul (sub (readAt (ys0 ++ ys) i)
                    (readAt (predictionsOf nn (xs0 ++ xs)) i))
               (readAt (xs0 ++ xs) i)),
        add (snd deltas)
          (sub (readAt (ys0 ++ ys) i)
               (readAt (predictionsOf nn (xs0 ++ xs)) i))))
    (seq (length xs0) (length xs)) deltas
  = deltaScan nn xs ys deltas.
Proof.
  induction xs as [|x xs IH]; intros ys xs0 ys0 deltas Hlen0 Hlen; [done|].
  destruct ys as [|y ys]; [done|].
  cbn [length seq fold_left deltaScan]. cbv zeta.
  assert (readAt (xs0 ++ x :: xs) (length xs0) = x) as ->
    by (unfold readAt; by rewrite list_lookup_middle).
  assert (readAt (ys0 ++ y :: ys) (length xs0) = y) as ->
    by (unfold readAt; by rewrite list_lookup_middle).
  assert (readAt (predictionsOf nn (xs0 ++ x :: xs)) (length xs0) = predictWith nn x) as ->.
  { unfold readAt, predictionsOf. rewrite map_app. cbn [map].
    by rewrite list_lookup_middle by (by rewrite length_map). }
  specialize (IH ys (xs0 ++ [x]) (ys0 ++ [y])).
  rewrite <- !app_assoc, length_app in IH. cbn [app length] in IH.
  replace (length xs0 + 1) with (S (length xs0)) in IH by lia.
  apply IH; [rewrite length_app; simpl; lia|]. by injection Hlen.
Qed.

Lemma stepOf_scanStep alpha xs ys nn :
  length xs = length ys → stepOf alpha xs ys nn = scanStep alpha xs ys nn.
Proof.
  intros Hlen. unfold stepOf, scanStep, deltasOf, deltaSums. cbv zeta.
  by rewrite <- (deltaScan_sums nn xs ys [] [] _ eq_refl Hlen).
Qed.

Lemma iter_ext {A} (f g : A → A) k a :
  (∀ x, f x = g x) → Nat.iter k f a = Nat.iter k g a.
Proof.
  intros Hfg. induction k as [|k IH]; [done|].
  by rewrite !Nat.iter_succ, IH, Hfg.
Qed.

Lemma stretches_iter {A} (step : A → A) n marks : ∀ a,
  stretches step n a marks →
  Nat.iter (length marks * n) step a = default a (last marks).
Proof.
  induction marks as [|c marks IH]; intros a Hmarks; [done|].
  destruct Hmarks as [Hc Hrest].
  cbn [length]. replace (S (length marks) * n) with (length marks * n + n) by lia.
  rewrite Nat.iter_add, Hc, (IH c Hrest), last_cons.
  by destruct (last marks).
Qed.

End TrainedModel.

(** ** The driver's run, in binary64 *)

Lemma trainingMarks_hold :
  stretches (scanStep (ofDec 0.0005) trainingGrid trainingTargets) 1000
    initialModel trainingMarks.
Proof. vm_compute. repeat split. Qed.

Lemma trained_model :
  snd (trainingOf (Z.to_nat 70000) (ofDec 0.0005) trainingGrid trainingTargets
         initialModel)
  = mkNanoNeuron 1.8000660993166346%float 31.995615750787184%float.
Proof.
  rewrite trainingOf_model.
  rewrite (iter_ext _ (scanStep (ofDec 0.0005) trainingGrid trainingTargets))
    by (intros; by apply stepOf_scanStep).
  change (Z.to_nat 70000) with (length trainingMarks * 1000).
  rewrite (stretches_iter _ _ _ _ trainingMarks_hold). reflexivity.
Qed.

(** C5.  The driver's run from [w = 0.9492], [b = 0.4570]: 70000 epochs at
    [alpha = 0.0005] on the generated training set leave the model at
    [w = 1.8000660993166346], [b = 31.995615750787184], so that
    [abs(w - 1.8) < 0.05] and [abs(b - 32) < 1.0], and what the model then
    predicts for 30 is within 1.0 of [celsiusToFahrenheit(30)], which is 86. *)
Theorem driver_converges (fuel : nat) :
  101 ≤ fuel →
  ∃ report s' trained,
    main JS fuel 0.9492%float 0.4570%float ∅ = Ok report s' ∧
    s' !! nanoNeuron report = Some (Neuron trained) ∧
    trained = mkNanoNeuron 1.8000660993166346%float 31.995615750787184%float ∧
    PrimFloat.ltb (PrimFloat.abs (PrimFloat.sub (w trained) 1.8%float)) 0.05%float = true ∧
    PrimFloat.ltb (PrimFloat.abs (PrimFloat.sub (b trained) 32%float)) 1%float = true ∧
    predicted report = PrimFloat.add (PrimFloat.mul 30%float (w trained)) (b trained) ∧
    actual report = 86%float ∧
    PrimFloat.ltb (PrimFloat.abs (PrimFloat.sub (predicted report) (actual report)))
      1%float = true.
Proof.
  intros Hfuel. unfold main.
  erewrite bind_Ok by reflexivity.
  set (model := fresh (dom (∅ : gmap nat (object float)))).
  set (s1 := <[model := Neuron initialModel]> (∅ : gmap nat (object float))).
  destruct (generateDataSets_Ok fuel trainingGrid testGrid s1)
    as (sets & s2 & Hsets & HxTrain & HyTrain & _ & _ & Hkept).
  { by apply (numberRange_more 101 fuel _ _ _ _ trainingGrid_range). }
  { by apply (numberRange_more 101 fuel _ _ _ _ testGrid_range). }
  assert (s2 !! model = Some (Neuron initialModel)) as Hmodel
    by (apply Hkept; subst s1; by lookups).
  erewrite bind_Ok by exact Hsets.
  destruct (trainModel_Ok JS model (Z.to_nat 70000) (ofDec 0.0005)
              (xTrain sets) (yTrain sets) initialModel
              trainingGrid trainingTargets s2)
    as (s3 & Htrain & Htrained & Hhistory & _); try done.
  rewrite trained_model in Htrained.
  erewrite bind_Ok by exact Htrain.
  mstep ltac:(first [exact Hhistory | done]).
  mstep ltac:(exact Hhistory).
  mstep ltac:(first [exact Hhistory | done]).
  cbv zeta. mstep ltac:(exact Htrained).
  eexists _, _, _. split; [reflexivity|]. cbn [nanoNeuron predicted actual].
  split; [exact Htrained|]. repeat split.
Qed.

Lemma driver_converges_witness :
  ∃ report s',
    main JS 101 0.9492%float 0.4570%float ∅ = Ok report s' ∧
    s' !! nanoNeuron report
    = Some (Neuron (mkNanoNeuron 1.8000660993166346%float 31.995615750787184%float)).
Proof.
  destruct (driver_converges 101 (le_n 101))
    as (report & s' & trained & Hrun & Hmodel & -> & _).
  exists report, s'. split; [exact Hrun|exact Hmodel].
Defined.

(** ** Further properties of the trainer *)

Section TrainerComposes.
Context {T : Type} `{Number T}.
Implicit Types (s : gmap nat (object T)) (xs ys : list T) (nn : NanoNeuron T).

Lemma epochs_from alpha xs ys k : ∀ hist nn,
  Nat.iter k (epochOf alpha xs ys) (hist, nn)
  = (hist ++ fst (trainingOf k alpha xs ys nn), snd (trainingOf k alpha xs ys nn)).
Proof.
  unfold trainingOf. induction k as [|k IH]; intros hist nn.
  - simpl. by rewrite app_nil_r.
  - rewrite !Nat.iter_succ, IH. unfold epochOf. cbn [fst snd].
    by rewrite <- app_assoc.
Qed.

Lemma trainingOf_add e1 e2 alpha xs ys nn :
  trainingOf (e1 + e2) alpha xs ys nn
  = (fst (trainingOf e1 alpha xs ys nn)
     ++ fst (trainingOf e2 alpha xs ys (snd (trainingOf e1 alpha xs ys nn))),
     snd (trainingOf e2 alpha xs ys (snd (trainingOf e1 alpha xs ys nn)))).
Proof.
  unfold trainingOf at 1. rewrite Nat.add_comm, Nat.iter_add.
  fold (trainingOf e1 alpha xs ys nn).
  rewrite (surjective_pairing (trainingOf e1 alpha xs ys nn)).
  rewrite epochs_from. done.
Qed.

(** X1.  Training can be resumed: [e1] epochs and then [e2] more, each call with
    its own history, leave the model as [e1 + e2] epochs in one call do, and
    the two histories in a row are the history of the one call. *)
Theorem trainModel_resumes (model xT yT : nat) (e1 e2 : nat) (alpha : T)
    nn xs ys s :
  s !! model = Some (Neuron nn) →
  s !! xT = Some (Array xs) →
  s !! yT = Some (Array ys) →
  ∃ h1 s1 h2 s2 h s' costs1 costs2,
    trainModel JS model e1 alpha xT yT s = Ok h1 s1 ∧
    trainModel JS model e2 alpha xT yT s1 = Ok h2 s2 ∧
    trainModel JS model (e1 + e2) alpha xT yT s = Ok h s' ∧
    s2 !! h1 = Some (Array costs1) ∧
    s2 !! h2 = Some (Array costs2) ∧
    h1 ≠ h2 ∧
    s' !! h = Some (Array (costs1 ++ costs2)) ∧
    s2 !! model = s' !! model.
Proof.
  intros Hm Hx Hy.
  assert (xT ≠ model ∧ yT ≠ model) as [? ?] by (split; congruence).
  destruct (trainModel_Ok JS model e1 alpha xT yT nn xs ys s)
    as (s1 & Hrun1 & Hm1 & Hh1 & Hframe1); try done.
  destruct (trainModel_Ok JS model e2 alpha xT yT _ xs ys s1 Hm1)
    as (s2 & Hrun2 & Hm2 & Hh2 & Hframe2);
    [by apply Hframe1 | by apply Hframe1 | done |].
  destruct (trainModel_Ok JS model (e1 + e2) alpha xT yT nn xs ys s)
    as (s' & Hrun & Hm' & Hh' & _); try done.
  assert (fresh (dom s) ≠ model) by (by eapply fresh_ne).
  eexists _, s1, _, s2, _, s', _, _.
  split; [exact Hrun1|]. split; [exact Hrun2|]. split; [exact Hrun|].
  split; [apply Hframe2; [exact Hh1|done]|].
  split; [exact Hh2|].
  split; [intros E; symmetry in E; revert E; by eapply fresh_ne|].
  rewrite trainingOf_add in Hm', Hh'. by rewrite Hm2, Hm'.
Qed.

End TrainerComposes.

Lemma trainModel_resumes_witness :
  ∃ h1 s1 h2 s2 h s',
    trainModel JS 0 1 0.5%float 1 2 sampleStore = Ok h1 s1 ∧
    trainModel JS 0 1 0.5%float 1 2 s1 = Ok h2 s2 ∧
    trainModel JS 0 2 0.5%float 1 2 sampleStore = Ok h s' ∧
    s2 !! 0 = s' !! 0.
Proof.
  destruct (trainModel_resumes 0 1 2 1 1 0.5%float
              (mkNanoNeuron 0.5%float 0.25%float)
              [1%float; 2%float] [3%float; 5%float] sampleStore
              eq_refl eq_refl eq_refl)
    as (h1 & s1 & h2 & s2 & h & s' & ? & ? & H1 & H2 & H3 & _ & _ & _ & _ & Hm).
  exists h1, s1, h2, s2, h, s'. repeat split; [exact H1|exact H2|exact H3|exact Hm].
Defined.

Section TrainerFrames.
Context {T : Type} `{Number T}.
Implicit Types (s : gmap nat (object T)) (xs ys : list T) (nn : NanoNeuron T).

(** X2.  Two neurons are two objects: training the first leaves the second as it
    was constructed. *)
Theorem neurons_are_independent (xT yT : nat) (w1 b1 w2 b2 alpha x : T)
    (epochs : nat) xs ys s :
  s !! xT = Some (Array xs) →
  s !! yT = Some (Array ys) →
  ∃ n1 n2 s',
    (n1 <- newNanoNeuron w1 b1 ;;
     n2 <- newNanoNeuron w2 b2 ;;
     trainModel JS n1 epochs alpha xT yT ;;;
     p <- predict n2 x ;;
     ret (n1, n2, p)) s = Ok (n1, n2, add (mul x w2) b2) s' ∧
    n1 ≠ n2 ∧
    s !! n1 = None ∧
    s !! n2 = None ∧
    s' !! n1 = Some (Neuron (snd (trainingOf epochs alpha xs ys (mkNanoNeuron w1 b1)))) ∧
    s' !! n2 = Some (Neuron (mkNanoNeuron w2 b2)).
Proof.
  intros Hx Hy.
  set (n1 := fresh (dom s)).
  set (s1 := <[n1 := Neuron (mkNanoNeuron w1 b1)]> s).
  set (n2 := fresh (dom s1)).
  set (s2 := <[n2 := Neuron (mkNanoNeuron w2 b2)]> s1).
  assert (s1 !! n1 = Some (Neuron (mkNanoNeuron w1 b1))) as Hn1
    by (subst s1; by lookups).
  assert (n2 ≠ n1) as Hne by (by eapply fresh_ne).
  assert (n1 ≠ xT ∧ n1 ≠ yT) as [? ?] by (split; by eapply fresh_ne).
  assert (n2 ≠ xT ∧ n2 ≠ yT) as [? ?]
    by (split; eapply fresh_ne; subst s1; by lookups).
  destruct (trainModel_Ok JS n1 epochs alpha xT yT (mkNanoNeuron w1 b1) xs ys s2)
    as (s' & Hrun & Hm & _ & Hframe); [subst s2 s1; by lookups ..|done|].
  assert (s' !! n2 = Some (Neuron (mkNanoNeuron w2 b2))) as Hn2
    by (apply Hframe; [subst s2; by lookups|done]).
  exists n1, n2, s'. split; [|repeat split; try done].
  - erewrite bind_Ok by reflexivity. fold n1 s1.
    erewrite bind_Ok by reflexivity. fold n2 s2.
    erewrite bind_Ok by exact Hrun.
    by erewrite bind_Ok by (by eapply predict_Ok).
  - apply fresh_lookup.
  - destruct (s !! n2) as [o|] eqn:E; [|done].
    exfalso. eapply (fresh_ne s1 n2 o); [|done]. subst s1. by lookups.
Qed.

Lemma fold_left_seq_ext {A} (f g : A → nat → A) k : ∀ i a,
  (∀ a j, i ≤ j < i + k → f a j = g a j) →
  fold_left f (seq i k) a = fold_left g (seq i k) a.
Proof.
  induction k as [|k IH]; intros i a Hfg; [done|].
  cbn [seq fold_left]. rewrite Hfg by lia. apply IH.
  intros a' j Hj. apply Hfg. lia.
Qed.

Lemma readAt_app_l (l extra : list T) i :
  i < length l → readAt (l ++ extra) i = readAt l i.
Proof. intros Hi. unfold readAt. by rewrite lookup_app_l. Qed.

Lemma trainingOf_surplus epochs alpha xs ys extra nn :
  length xs ≤ length ys →
  trainingOf epochs alpha xs (ys ++ extra) nn = trainingOf epochs alpha xs ys nn.
Proof.
  intros Hlen. unfold trainingOf. induction epochs as [|k IH]; [done|].
  rewrite !Nat.iter_succ, IH. unfold epochOf. f_equal; [f_equal; f_equal|f_equal].
  - unfold averageCostOf, costSum. f_equal. apply fold_left_seq_ext.
    intros a j Hj. by rewrite readAt_app_l by lia.
  - unfold deltasOf, deltaSums. cbv zeta.
    rewrite (fold_left_seq_ext _
               (λ deltas i,
                  (add (fst deltas)
                     (mul (sub (readAt ys i)
                             (readAt (predictionsOf (snd (Nat.iter k (epochOf alpha xs ys) ([], nn))) xs) i))
                        (readAt xs i)),
                   add (snd deltas)
                     (sub (readAt ys i)
                        (readAt (predictionsOf (snd (Nat.iter k (epochOf alpha xs ys) ([], nn))) xs) i))))).
    + done.
    + intros a j Hj. by rewrite readAt_app_l by lia.
Qed.

(** X3.  The inputs give the count: targets past the last input are never read,
    so training with more targets than inputs returns the history and leaves
    the model as training with the surplus cut off does. *)
Theorem surplus_targets_are_ignored (model xT yT : nat) (epochs : nat) (alpha : T)
    nn xs ys extra s :
  s !! model = Some (Neuron nn) →
  s !! xT = Some (Array xs) →
  s !! yT = Some (Array ys) →
  xT ≠ yT →
  length xs ≤ length ys →
  ∃ h s1 s2 costs trained,
    trainModel JS model epochs alpha xT yT s = Ok h s1 ∧
    trainModel JS model epochs alpha xT yT (<[yT := Array (ys ++ extra)]> s) = Ok h s2 ∧
    s1 !! h = Some (Array costs) ∧
    s2 !! h = Some (Array costs) ∧
    s1 !! model = Some (Neuron trained) ∧
    s2 !! model = Some (Neuron trained).
Proof.
  intros Hm Hx Hy Hne Hlen.
  assert (yT ≠ model) by congruence.
  destruct (trainModel_Ok JS model epochs alpha xT yT nn xs ys s)
    as (s1 & Hrun1 & Hm1 & Hh1 & _); try done.
  destruct (trainModel_Ok JS model epochs alpha xT yT nn xs (ys ++ extra)
              (<[yT := Array (ys ++ extra)]> s))
    as (s2 & Hrun2 & Hm2 & Hh2 & _); [by lookups ..|done|].
  assert (dom (<[yT := Array (ys ++ extra)]> s) = dom s) as Hdom.
  { apply dom_insert_lookup_L. by rewrite Hy. }
  rewrite Hdom in Hrun2, Hh2. rewrite trainingOf_surplus in Hm2, Hh2 by done.
  by eexists _, s1, s2, _, _.
Qed.

End TrainerFrames.

Lemma neurons_are_independent_witness :
  ∃ n1 n2 s',
    (n1 <- newNanoNeuron 0.5%float 0.25%float ;;
     n2 <- newNanoNeuron 2%float 1%float ;;
     trainModel JS n1 2 0.5%float 1 2 ;;;
     p <- predict n2 3%float ;;
     ret (n1, n2, p)) sampleStore = Ok (n1, n2, 7%float) s' ∧
    s' !! n2 = Some (Neuron (mkNanoNeuron 2%float 1%float)).
Proof.
  destruct (neurons_are_independent 1 2 0.5%float 0.25%float 2%float 1%float
              0.5%float 3%float 2 [1%float; 2%float] [3%float; 5%float]
              sampleStore eq_refl eq_refl)
    as (n1 & n2 & s' & Hrun & _ & _ & _ & _ & Hn2).
  exists n1, n2, s'. split; [exact Hrun|exact Hn2].
Defined.

Lemma surplus_targets_are_ignored_witness :
  ∃ h s1 s2 trained,
    trainModel JS 0 2 0.5%float 1 2 sampleStore = Ok h s1 ∧
    trainModel JS 0 2 0.5%float 1 2
      (<[2 := Array [3%float; 5%float; 8%float]]> sampleStore) = Ok h s2 ∧
    s1 !! 0 = Some (Neuron trained) ∧
    s2 !! 0 = Some (Neuron trained).
Proof.
  destruct (surplus_targets_are_ignored 0 1 2 2 0.5%float
              (mkNanoNeuron 0.5%float 0.25%float)
              [1%float; 2%float] [3%float; 5%float] [8%float] sampleStore
              eq_refl eq_refl eq_refl ltac:(lia) (le_n 2))
    as (h & s1 & s2 & costs & trained & H1 & H2 & _ & _ & H3 & H4).
  exists h, s1, s2, trained. repeat split; [exact H1|exact H2|exact H3|exact H4].
Defined.

Section CostHistory.
Context {T : Type} `{Number T}.

Lemma trainingOf_costs epochs alpha (xs ys : list T) (nn : NanoNeuron T) :
  fst (trainingOf epochs alpha xs ys nn)
  = map (λ j, averageCostOf (Nat.iter j (stepOf alpha xs ys) nn) xs ys)
        (seq 0 epochs).
Proof.
  induction epochs as [|k IH]; [done|].
  rewrite seq_S, map_app. cbn [map Nat.add]. rewrite <- IH, <- trainingOf_model.
  unfold trainingOf. rewrite Nat.iter_succ. done.
Qed.

End CostHistory.

(** ** Further properties of the cost, over the real numbers *)

Section RealDescent.
Context (nan : R).
#[local] Hint Extern 0 (Number R) => exact (RealNumber nan) : typeclass_instances.
Implicit Types (s : gmap nat (object R)) (xs ys ps : list R) (nn : NanoNeuron R).
Local Open Scope R_scope.

Lemma sigma_plus m (f g : nat → R) :
  sigma m (λ i, f i + g i) = sigma m f + sigma m g.
Proof. induction m as [|m IH]; simpl; [lra|]. rewrite IH. lra. Qed.

Lemma sigma_scal m c (f : nat → R) : sigma m (λ i, c * f i) = c * sigma m f.
Proof. induction m as [|m IH]; simpl; [lra|]. rewrite IH. lra. Qed.

Lemma sigma_le m (f g : nat → R) :
  (∀ i, (i < m)%nat → f i <= g i) → sigma m f <= sigma m g.
Proof.
  induction m as [|m IH]; intros Hfg; simpl; [lra|].
  assert (sigma m f <= sigma m g) by (apply IH; intros; apply Hfg; lia).
  assert (f m <= g m) by (apply Hfg; lia). lra.
Qed.


Lemma sigma_all_zero m (f : nat → R) :
  (∀ i, (i < m)%nat → f i = 0) → sigma m f = 0.
Proof.
  intros Hf. induction m as [|m IH]; simpl; [done|].
  rewrite IH, Hf by (intros; try apply Hf; lia). lra.
Qed.

Lemma deltasOf_predictions nn xs ys :
  xs ≠ [] → length xs = length ys →
  averageDeltaW (deltasOf (predictionsOf nn xs) xs ys)
  = 1 / INR (length xs)
    * sigma (length xs)
        (λ i, (nth i ys 0 - (nth i xs 0 * w nn + b nn)) * nth i xs 0) ∧
  averageDeltaB (deltasOf (predictionsOf nn xs) xs ys)
  = 1 / INR (length xs)
    * sigma (length xs) (λ i, nth i ys 0 - (nth i xs 0 * w nn + b nn)).
Proof.
  intros Hne Hlen.
  destruct (deltasOf_sigma nan (predictionsOf nn xs) xs ys Hne) as [-> ->].
  assert (∀ i, (i < length xs)%nat →
            readAt (predictionsOf nn xs) i = nth i xs 0 * w nn + b nn) as Hp.
  { intros i Hi. unfold readAt, predictionsOf. rewrite list_lookup_fmap.
    destruct (lookup_lt_is_Some_2 xs i Hi) as [x Hxi]. rewrite Hxi.
    by rewrite (nth_lookup_Some _ _ _ _ Hxi). }
  split; f_equal; apply sigma_ext; intros i Hi;
    rewrite Hp, !(readAt_nth nan) by lia; done.
Qed.

(** One update with a step that is not too long does not raise the cost. *)
Lemma step_descends alpha nn xs ys :
  xs ≠ [] → length xs = length ys →
  0 <= alpha →
  alpha * (1 / INR (length xs) * sigma (length xs) (λ i, nth i xs 0 ^ 2 + 1)) <= 2 →
  averageCostOf (stepOf alpha xs ys nn) xs ys <= averageCostOf nn xs ys.
Proof.
  intros Hne Hlen Halpha Hstep.
  pose proof (count_nonzero xs Hne) as Hm.
  assert (0 < INR (length xs)) as Hmpos.
  { apply lt_0_INR. destruct xs; [done|simpl; lia]. }
  rewrite !(averageCostOf_sigma nan) by done.
  unfold stepOf, updated. cbn [w b add mul RealNumber].
  destruct (deltasOf_predictions nn xs ys Hne Hlen) as [HdW HdB].
  set (dW := averageDeltaW _) in *. set (dB := averageDeltaB _) in *.
  set (m := length xs) in *.
  set (r := λ i, nth i ys 0 - (nth i xs 0 * w nn + b nn)).
  set (P := sigma m (λ i, r i * nth i xs 0)) in *.
  set (Q := sigma m r) in *.
  set (A := sigma m (λ i, r i ^ 2 / 2)).
  set (K := sigma m (λ i, nth i xs 0 ^ 2 + 1)) in *.
  set (U := sigma m (λ i, (nth i xs 0 * dW + dB) ^ 2)).
  assert (sigma m (λ i, (nth i ys 0
                         - (nth i xs 0 * (w nn + dW * alpha) + (b nn + dB * alpha))) ^ 2 / 2)
          = A + (- alpha * dW) * P + (- alpha * dB) * Q + (alpha ^ 2 / 2) * U) as ->.
  { unfold A, P, Q, U. rewrite <- !sigma_scal, <- !sigma_plus.
    apply sigma_ext. intros i _. unfold r. field. }
  assert (U <= (dW ^ 2 + dB ^ 2) * K) as HU.
  { unfold U, K. rewrite <- sigma_scal. apply sigma_le. intros i _.
    cbn beta. pose proof (pow2_ge_0 (dW - nth i xs 0 * dB)). nra. }
  change (sigma m (λ i, (nth i ys 0 - (nth i xs 0 * w nn + b nn)) ^ 2 / 2)) with A.
  change (dW = 1 / INR m * P) in HdW. change (dB = 1 / INR m * Q) in HdB.
  clearbody dW dB P Q A U K.
  assert (P = INR m * dW) as HP by (rewrite HdW; field; done).
  assert (Q = INR m * dB) as HQ by (rewrite HdB; field; done).
  assert (alpha * K <= 2 * INR m) as HK.
  { replace (alpha * (1 / INR m * K)) with (alpha * K / INR m) in Hstep
      by (field; done).
    apply (Rmult_le_compat_r (INR m)) in Hstep; [|lra].
    replace (alpha * K / INR m * INR m) with (alpha * K) in Hstep by (field; done).
    done. }
  assert (0 <= dW ^ 2 + dB ^ 2) as HG by nra.
  assert ((- alpha * dW) * P + (- alpha * dB) * Q + (alpha ^ 2 / 2) * U <= 0).
  { rewrite HP, HQ.
    assert (alpha ^ 2 / 2 * U <= alpha ^ 2 / 2 * ((dW ^ 2 + dB ^ 2) * K))
      by (apply Rmult_le_compat_l; [nra|done]).
    assert (alpha * (dW ^ 2 + dB ^ 2) * (alpha * K) 
            <= alpha * (dW ^ 2 + dB ^ 2) * (2 * INR m))
      by (apply Rmult_le_compat_l; [nra|done]).
    nra. }
  assert (0 < 1 / INR m) by (apply Rdiv_lt_0_compat; lra).
  nra.
Qed.

(** X4.  With [0 <= alpha] and [alpha * mean (x^2 + 1) <= 2] over the inputs [x],
    the cost history of a training run never rises from one epoch to the
    next, and no cost in it is negative. *)
Theorem cost_history_never_rises (sem : semantics) (model xT yT : nat)
    (epochs : nat) (alpha : R) nn xs ys s :
  s !! model = Some (Neuron nn) →
  s !! xT = Some (Array xs) →
  s !! yT = Some (Array ys) →
  xs ≠ [] →
  length xs = length ys →
  0 <= alpha →
  alpha * (1 / INR (length xs) * sigma (length xs) (λ i, nth i xs 0 ^ 2 + 1)) <= 2 →
  ∃ h s' costs,
    trainModel sem model epochs alpha xT yT s = Ok h s' ∧
    s' !! h = Some (Array costs) ∧
    length costs = epochs ∧
    (∀ i c, costs !! i = Some c → 0 <= c) ∧
    (∀ i c c', costs !! i = Some c → costs !! S i = Some c' → c' <= c).
Proof.
  intros Hm Hx Hy Hne Hlen Halpha Hstep.
  destruct (trainModel_Ok sem model epochs alpha xT yT nn xs ys s)
    as (s' & Hrun & _ & Hh & _); try done.
  { intros _. split; [lia|done]. }
  exists (fresh (dom s)), s', (fst (trainingOf epochs alpha xs ys nn)).
  split; [done|]. split; [done|].
  rewrite trainingOf_costs. split; [by rewrite length_map, length_seq|]. split.
  - intros i c Hc. rewrite list_lookup_fmap in Hc.
    destruct (seq 0 epochs !! i) as [j|]; [|done].
    cbn [fmap option_fmap option_map] in Hc.
    assert (c = averageCostOf (Nat.iter j (stepOf alpha xs ys) nn) xs ys) as ->
      by congruence.
    rewrite (averageCostOf_sigma nan) by done.
    apply Rmult_le_pos.
    + apply Rlt_le, Rdiv_lt_0_compat; [lra|].
      apply lt_0_INR. destruct xs; [done|simpl; lia].
    + apply sigma_nonneg. intros k _.
      apply Rmult_le_pos; [apply pow2_ge_0|lra].
  - intros i c c' Hc Hc'. rewrite list_lookup_fmap in Hc, Hc'.
    destruct (seq 0 epochs !! i) as [j|] eqn:Ej; [|done].
    destruct (seq 0 epochs !! S i) as [j'|] eqn:Ej'; [|done].
    apply lookup_seq in Ej as [-> _]. apply lookup_seq in Ej' as [-> _].
    cbn [fmap option_fmap option_map Nat.add] in Hc, Hc'.
    assert (c = averageCostOf (Nat.iter i (stepOf alpha xs ys) nn) xs ys) as ->
      by congruence.
    assert (c' = averageCostOf (Nat.iter (S i) (stepOf alpha xs ys) nn) xs ys) as ->
      by congruence.
    rewrite Nat.iter_succ. by apply step_descends.
Qed.


(** A model that fits every sample is a fixed point of the update, with cost
    zero. *)
Lemma exact_fit_step alpha (w0 b0 : R) xs ys :
  xs ≠ [] → length xs = length ys →
  (∀ i x y, xs !! i = Some x → ys !! i = Some y → y = x * w0 + b0) →
  stepOf alpha xs ys (mkNanoNeuron w0 b0) = mkNanoNeuron w0 b0 ∧
  averageCostOf (mkNanoNeuron w0 b0) xs ys = 0.
Proof.
  intros Hne Hlen Hfit.
  assert (∀ i, (i < length xs)%nat → nth i ys 0 - (nth i xs 0 * w0 + b0) = 0) as Hres.
  { intros i Hi.
    destruct (lookup_lt_is_Some_2 xs i Hi) as [x Hxi].
    destruct (lookup_lt_is_Some_2 ys i) as [y Hyi]; [lia|].
    rewrite (nth_lookup_Some _ _ _ _ Hxi), (nth_lookup_Some _ _ _ _ Hyi).
    rewrite (Hfit i x y Hxi Hyi). lra. }
  split.
  - unfold stepOf, updated. cbn [w b add mul RealNumber].
    destruct (deltasOf_predictions (mkNanoNeuron w0 b0) xs ys Hne Hlen) as [-> ->].
    cbn [w b]. rewrite !sigma_all_zero; [f_equal; lra|..].
    + intros i Hi. by apply Hres.
    + intros i Hi. rewrite Hres by done. lra.
  - rewrite (averageCostOf_sigma nan) by done. cbn [w b].
    rewrite sigma_all_zero; [lra|]. intros i Hi. rewrite Hres by done. lra.
Qed.

Lemma exact_fit_training epochs alpha (w0 b0 : R) xs ys :
  xs ≠ [] → length xs = length ys →
  (∀ i x y, xs !! i = Some x → ys !! i = Some y → y = x * w0 + b0) →
  snd (trainingOf epochs alpha xs ys (mkNanoNeuron w0 b0)) = mkNanoNeuron w0 b0 ∧
  ∀ c, c ∈ fst (trainingOf epochs alpha xs ys (mkNanoNeuron w0 b0)) → c = 0.
Proof.
  intros Hne Hlen Hfit.
  destruct (exact_fit_step alpha w0 b0 xs ys Hne Hlen Hfit) as [Hstep Hcost].
  assert (∀ k, Nat.iter k (stepOf alpha xs ys) (mkNanoNeuron w0 b0)
               = mkNanoNeuron w0 b0) as Hiter.
  { induction k as [|k IH]; [done|]. by rewrite Nat.iter_succ, IH. }
  split; [by rewrite trainingOf_model|].
  intros c Hc. rewrite trainingOf_costs in Hc.
  apply list_elem_of_fmap in Hc as (j & -> & _). by rewrite Hiter.
Qed.

(** X6.  Training a model that already fits every sample changes nothing: for
    every number of epochs and every [alpha] the model keeps its [w] and [b],
    and every cost in the history is zero. *)
Theorem exact_fit_is_kept (sem : semantics) (model xT yT : nat) (epochs : nat)
    (alpha w0 b0 : R) xs ys s :
  s !! model = Some (Neuron (mkNanoNeuron w0 b0)) →
  s !! xT = Some (Array xs) →
  s !! yT = Some (Array ys) →
  xs ≠ [] →
  length xs = length ys →
  (∀ i x y, xs !! i = Some x → ys !! i = Some y → y = x * w0 + b0) →
  ∃ h s' costs,
    trainModel sem model epochs alpha xT yT s = Ok h s' ∧
    s' !! model = Some (Neuron (mkNanoNeuron w0 b0)) ∧
    s' !! h = Some (Array costs) ∧
    length costs = epochs ∧
    ∀ c, c ∈ costs → c = 0.
Proof.
  intros Hm Hx Hy Hne Hlen Hfit.
  destruct (trainModel_Ok sem model epochs alpha xT yT _ xs ys s Hm Hx Hy)
    as (s' & Hrun & Hm' & Hh & _).
  { intros _. split; [lia|done]. }
  destruct (exact_fit_training epochs alpha w0 b0 xs ys Hne Hlen Hfit)
    as [Hmodel Hcosts].
  rewrite Hmodel in Hm'.
  eexists _, s', _. repeat split; try done.
  unfold trainingOf. by rewrite epochs_length.
Qed.

(** X7.  The function to learn is where training stays: on inputs with the
    targets [celsiusToFahrenheit] gives them, a neuron with [w = W] and
    [b = B] keeps its parameters through any training, at cost zero. *)
Theorem celsiusToFahrenheit_is_kept (sem : semantics) (model xT yT : nat)
    (epochs : nat) (alpha : R) xs s :
  s !! model = Some (Neuron (mkNanoNeuron W B)) →
  s !! xT = Some (Array xs) →
  s !! yT = Some (Array (map celsiusToFahrenheit xs)) →
  xs ≠ [] →
  ∃ h s' costs,
    trainModel sem model epochs alpha xT yT s = Ok h s' ∧
    s' !! model = Some (Neuron (mkNanoNeuron W B)) ∧
    (∀ x, predict model x s' = Ok (celsiusToFahrenheit x) s') ∧
    s' !! h = Some (Array costs) ∧
    ∀ c, c ∈ costs → c = 0.
Proof.
  intros Hm Hx Hy Hne.
  assert (length xs = length (map celsiusToFahrenheit xs)) as Hlen
    by (by rewrite length_map).
  destruct (trainModel_Ok sem model epochs alpha xT yT _ xs _ s Hm Hx Hy)
    as (s' & Hrun & Hm' & Hh & _).
  { intros _. split; [lia|done]. }
  destruct (exact_fit_training epochs alpha W B xs (map celsiusToFahrenheit xs)
              Hne Hlen) as [Hmodel Hcosts].
  { intros i x y Hxi Hyi. rewrite list_lookup_fmap, Hxi in Hyi.
    by injection Hyi as <-. }
  rewrite Hmodel in Hm'.
  eexists _, s', _. repeat split; try done.
  intros x. erewrite predict_Ok by exact Hm'. reflexivity.
Qed.

End RealDescent.

Lemma realStore_fits : ∀ i x y,
  [1%R; 2%R] !! i = Some x → [3%R; 5%R] !! i = Some y → (y = x * 2 + 1)%R.
Proof.
  intros [|[|i]] x y; simpl; intros [= <-] [= <-]; lra.
Qed.

Lemma cost_history_never_rises_witness :
  ∃ h s' costs,
    trainModel (H := RealNumber 0) JS 0 3 (1 / 2)%R 1 2 realStore = Ok h s' ∧
    s' !! h = Some (Array costs) ∧
    ∀ i c c', costs !! i = Some c → costs !! S i = Some c' → (c' <= c)%R.
Proof.
  destruct (cost_history_never_rises 0 JS 0 1 2 3 (1 / 2)%R
              (mkNanoNeuron 2%R 1%R) [1%R; 2%R] [4%R; 7%R] realStore
              eq_refl eq_refl eq_refl)
    as (h & s' & costs & Hrun & Hh & _ & _ & Hfalls);
    [discriminate | reflexivity | lra | simpl; lra |].
  exists h, s', costs. repeat split; [exact Hrun|exact Hh|exact Hfalls].
Defined.


Lemma exact_fit_is_kept_witness :
  ∃ h s',
    trainModel (H := RealNumber 0) JS 0 5 (1 / 2)%R 1 3 realStore = Ok h s' ∧
    s' !! 0 = Some (Neuron (mkNanoNeuron 2%R 1%R)).
Proof.
  destruct (exact_fit_is_kept 0 JS 0 1 3 5 (1 / 2)%R 2%R 1%R
              [1%R; 2%R] [3%R; 5%R] realStore eq_refl eq_refl eq_refl)
    as (h & s' & costs & Hrun & Hm & _);
    [discriminate | reflexivity | exact realStore_fits |].
  exists h, s'. split; [exact Hrun|exact Hm].
Defined.

Lemma celsiusToFahrenheit_is_kept_witness :
  ∃ h s',
    trainModel (H := RealNumber 0) JS 0 5 (1 / 2)%R 1 2
      {[ 0 := Neuron (mkNanoNeuron (W (H := RealNumber 0)) (B (H := RealNumber 0)));
         1 := Array [0%R; 100%R];
         2 := Array (map (celsiusToFahrenheit (H := RealNumber 0)) [0%R; 100%R]) ]}
    = Ok h s' ∧
    s' !! 0 = Some (Neuron (mkNanoNeuron (W (H := RealNumber 0)) (B (H := RealNumber 0)))).
Proof.
  destruct (celsiusToFahrenheit_is_kept 0 JS 0 1 2 5 (1 / 2)%R [0%R; 100%R]
              {[ 0 := Neuron (mkNanoNeuron (W (H := RealNumber 0)) (B (H := RealNumber 0)));
                 1 := Array [0%R; 100%R];
                 2 := Array (map (celsiusToFahrenheit (H := RealNumber 0)) [0%R; 100%R]) ]})
    as (h & s' & costs & Hrun & Hm & _);
    [reflexivity | reflexivity | reflexivity | discriminate |].
  exists h, s'. split; [exact Hrun|exact Hm].
Defined.

(** ** What missing samples do, in binary64 *)

Section NaNSpreads.
Implicit Types (x y : float) (xs ys : list float) (nn : NanoNeuron float).

Lemma add_nan_l x : PrimFloat.add PrimFloat.nan x = PrimFloat.nan.
Proof. apply Prim2SF_inj. rewrite add_spec. reflexivity. Qed.

Lemma add_nan_r x : PrimFloat.add x PrimFloat.nan = PrimFloat.nan.
Proof. apply Prim2SF_inj. rewrite add_spec. by destruct (Prim2SF x). Qed.

Lemma sub_nan_l x : PrimFloat.sub PrimFloat.nan x = PrimFloat.nan.
Proof. apply Prim2SF_inj. rewrite sub_spec. reflexivity. Qed.

Lemma mul_nan_l x : PrimFloat.mul PrimFloat.nan x = PrimFloat.nan.
Proof. apply Prim2SF_inj. rewrite mul_spec. reflexivity. Qed.

Lemma div_nan_l x : PrimFloat.div PrimFloat.nan x = PrimFloat.nan.
Proof. apply Prim2SF_inj. rewrite div_spec. reflexivity. Qed.

Lemma sum_stays_nan (g : nat → float) l :
  fold_left (λ c i, add c (g i)) l PrimFloat.nan = PrimFloat.nan.
Proof.
  induction l as [|a l IH]; [done|]. cbn [fold_left].
  cbn [add FloatNumber]. rewrite add_nan_l. exact IH.
Qed.

Lemma sum_turns_nan (g : nat → float) l j : ∀ c,
  j ∈ l → g j = PrimFloat.nan →
  fold_left (λ c i, add c (g i)) l c = PrimFloat.nan.
Proof.
  induction l as [|a l IH]; intros c Hj Hg; [by apply elem_of_nil in Hj|].
  cbn [fold_left]. apply elem_of_cons in Hj as [<-|Hj].
  - rewrite Hg. cbn [add FloatNumber]. rewrite add_nan_r. apply sum_stays_nan.
  - by apply IH.
Qed.

Lemma pair_sums (f g : nat → float) l : ∀ d,
  fold_left (λ d i, (add (fst d) (f i), add (snd d) (g i))) l d
  = (fold_left (λ c i, add c (f i)) l (fst d),
     fold_left (λ c i, add c (g i)) l (snd d)).
Proof.
  induction l as [|a l IH]; intros d; [by destruct d|].
  cbn [fold_left]. by rewrite IH.
Qed.

Lemma nan_costs_nan_model alpha xs ys :
  (∀ nn, averageCostOf nn xs ys = PrimFloat.nan) →
  (∀ nn, deltasOf (predictionsOf nn xs) xs ys
         = mkBackwardResult PrimFloat.nan PrimFloat.nan) →
  ∀ epochs nn,
    trainingOf (S epochs) alpha xs ys nn
    = (replicate (S epochs) PrimFloat.nan,
       mkNanoNeuron PrimFloat.nan PrimFloat.nan).
Proof.
  intros Hcost Hdeltas epochs nn.
  rewrite (surjective_pairing (trainingOf _ _ _ _ _)).
  rewrite trainingOf_costs, trainingOf_model. f_equal.
  - generalize (S epochs) as k. intros k. generalize 0 as i.
    induction k as [|k IH]; intros i; [done|].
    cbn [seq map replicate]. by rewrite Hcost, IH.
  - rewrite Nat.iter_succ. unfold stepOf at 1. rewrite Hdeltas.
    unfold updated. cbn [averageDeltaW averageDeltaB add mul FloatNumber].
    by rewrite !mul_nan_l, !add_nan_r.
Qed.

(** X8.  Training on an empty sample set: the count is zero, every average is
    [0 / 0], and from the first epoch on the model's [w] and [b] and every
    cost in the history are [NaN]. *)
Theorem empty_sample_set_gives_NaN (model xT yT : nat) (epochs : nat)
    (alpha : float) nn ys (s : gmap nat (object float)) :
  s !! model = Some (Neuron nn) →
  s !! xT = Some (Array []) →
  s !! yT = Some (Array ys) →
  ∃ h s',
    trainModel JS model (S epochs) alpha xT yT s = Ok h s' ∧
    s' !! model = Some (Neuron (mkNanoNeuron PrimFloat.nan PrimFloat.nan)) ∧
    s' !! h = Some (Array (replicate (S epochs) PrimFloat.nan)).
Proof.
  intros Hm Hx Hy.
  destruct (trainModel_Ok JS model (S epochs) alpha xT yT nn [] ys s)
    as (s' & Hrun & Hm' & Hh & _); try done.
  rewrite nan_costs_nan_model in Hm', Hh by done.
  by exists (fresh (dom s)), s'.
Qed.

(** X9.  Training with fewer targets than inputs: the read past the last target
    gives [NaN], which every sum takes on, and from the first epoch on the
    model's [w] and [b] and every cost in the history are [NaN]. *)
Theorem missing_targets_give_NaN (model xT yT : nat) (epochs : nat)
    (alpha : float) nn xs ys (s : gmap nat (object float)) :
  s !! model = Some (Neuron nn) →
  s !! xT = Some (Array xs) →
  s !! yT = Some (Array ys) →
  length ys < length xs →
  ∃ h s',
    trainModel JS model (S epochs) alpha xT yT s = Ok h s' ∧
    s' !! model = Some (Neuron (mkNanoNeuron PrimFloat.nan PrimFloat.nan)) ∧
    s' !! h = Some (Array (replicate (S epochs) PrimFloat.nan)).
Proof.
  intros Hm Hx Hy Hshort.
  destruct (trainModel_Ok JS model (S epochs) alpha xT yT nn xs ys s)
    as (s' & Hrun & Hm' & Hh & _); try done.
  assert (readAt ys (length ys) = PrimFloat.nan) as Hread.
  { unfold readAt. by rewrite lookup_ge_None_2. }
  assert (length ys ∈ seq 0 (length xs)) as Hin
    by (apply elem_of_seq; lia).
  assert (trainingOf (S epochs) alpha xs ys nn
          = (replicate (S epochs) PrimFloat.nan,
             mkNanoNeuron PrimFloat.nan PrimFloat.nan)) as Hnan.
  { apply nan_costs_nan_model.
    - intros nn'. unfold averageCostOf, costSum.
      rewrite (sum_turns_nan
                 (λ i, predictionCost (readAt ys i) (predictWith nn' (readAt xs i)))
                 _ (length ys)); [apply div_nan_l|done|].
      rewrite Hread. unfold predictionCost. cbn [sub sqr div FloatNumber].
      by rewrite sub_nan_l, mul_nan_l, div_nan_l.
    - intros nn'. unfold deltasOf, deltaSums. cbv zeta.
      rewrite (pair_sums
                 (λ i, mul (sub (readAt ys i) (readAt (predictionsOf nn' xs) i))
                           (readAt xs i))
                 (λ i, sub (readAt ys i) (readAt (predictionsOf nn' xs) i))).
      cbn [fst snd].
      rewrite (sum_turns_nan
                 (λ i, mul (sub (readAt ys i) (readAt (predictionsOf nn' xs) i))
                           (readAt xs i)) _ (length ys)); [|done|].
      2:{ rewrite Hread. cbn [sub mul FloatNumber]. by rewrite sub_nan_l, mul_nan_l. }
      rewrite (sum_turns_nan
                 (λ i, sub (readAt ys i) (readAt (predictionsOf nn' xs) i))
                 _ (length ys)); [|done|].
      2:{ rewrite Hread. cbn [sub FloatNumber]. apply sub_nan_l. }
      cbn [div FloatNumber]. by rewrite div_nan_l. }
  rewrite Hnan in Hm', Hh.
  by exists (fresh (dom s)), s'.
Qed.

End NaNSpreads.

Lemma empty_sample_set_gives_NaN_witness :
  ∃ h s',
    trainModel JS 0 3 0.5%float 1 2 (<[1 := Array []]> sampleStore) = Ok h s' ∧
    s' !! 0 = Some (Neuron (mkNanoNeuron PrimFloat.nan PrimFloat.nan)).
Proof.
  destruct (empty_sample_set_gives_NaN 0 1 2 2 0.5%float
              (mkNanoNeuron 0.5%float 0.25%float) [3%float; 5%float]
              (<[1 := Array []]> sampleStore))
    as (h & s' & Hrun & Hm & _); [reflexivity ..|].
  exists h, s'. split; [exact Hrun|exact Hm].
Defined.

Lemma missing_targets_give_NaN_witness :
  ∃ h s',
    trainModel JS 0 3 0.5%float 1 2 (<[2 := Array [3%float]]> sampleStore)
    = Ok h s' ∧
    s' !! 0 = Some (Neuron (mkNanoNeuron PrimFloat.nan PrimFloat.nan)).
Proof.
  destruct (missing_targets_give_NaN 0 1 2 2 0.5%float
              (mkNanoNeuron 0.5%float 0.25%float) [1%float; 2%float] [3%float]
              (<[2 := Array [3%float]]> sampleStore))
    as (h & s' & Hrun & Hm & _); [reflexivity ..|simpl; lia|].
  exists h, s'. split; [exact Hrun|exact Hm].
Defined.

(** ** What the generator allocates *)

Section DataSetsAllocated.
Context {T : Type} `{Number T}.
Implicit Types (s : gmap nat (object T)) (vals : list T).

Lemma generateDataSets_new fuel trainIn testIn s :
  numberRange fuel (ofZ 0) (ofZ 100) (ofZ 1) = Some trainIn →
  numberRange fuel (ofDec 0.5) (ofZ 100) (ofZ 1) = Some testIn →
  ∃ sets s',
    generateDataSets fuel s = Ok sets s' ∧
    NoDup [xTrain sets; yTrain sets; xTest sets; yTest sets] ∧
    (∀ r, r ∈ [xTrain sets; yTrain sets; xTest sets; yTest sets] → s !! r = None) ∧
    (∀ l o, s !! l = Some o → s' !! l = Some o) ∧
    (∀ l, l ∉ [xTrain sets; yTrain sets; xTest sets; yTest sets] →
          s' !! l = s !! l).
Proof.
  intros Htrain Htest. unfold generateDataSets.
  erewrite bind_Ok by reflexivity. set (r0 := fresh (dom s)).
  set (s0 := <[r0 := Array []]> s).
  erewrite bind_Ok by reflexivity. set (r1 := fresh (dom s0)).
  set (s1 := <[r1 := Array []]> s0).
  assert (r1 ≠ r0) by (eapply fresh_ne; subst s0; by lookups).
  erewrite bind_Ok.
  2:{ erewrite forNumber_forEach by done.
      apply push_each with (xs := []) (ys := []); subst s1 s0; by lookups. }
  cbn [app].
  set (s2 := <[r1 := _]> (<[r0 := _]> s1)).
  erewrite bind_Ok by reflexivity. set (r2 := fresh (dom s2)).
  set (s3 := <[r2 := Array []]> s2).
  erewrite bind_Ok by reflexivity. set (r3 := fresh (dom s3)).
  set (s4 := <[r3 := Array []]> s3).
  assert (r3 ≠ r2) by (eapply fresh_ne; subst s3; by lookups).
  assert (r2 ≠ r0 ∧ r2 ≠ r1) as [? ?]
    by (split; eapply fresh_ne; subst s2; by lookups).
  assert (r3 ≠ r0 ∧ r3 ≠ r1) as [? ?]
    by (split; eapply fresh_ne; subst s3 s2; by lookups).
  erewrite bind_Ok.
  2:{ erewrite forNumber_forEach by done.
      apply push_each with (xs := []) (ys := []); subst s4 s3; by lookups. }
  cbn [app]. eexists _, _. split; [reflexivity|].
  cbn [xTrain yTrain xTest yTest].
  assert (∀ l o, s !! l = Some o → r0 ≠ l ∧ r1 ≠ l ∧ r2 ≠ l ∧ r3 ≠ l) as Hold.
  { intros l o Hl.
    assert (r0 ≠ l) by (by eapply fresh_ne).
    assert (r1 ≠ l) by (eapply fresh_ne; subst s0; by lookups).
    assert (r2 ≠ l) by (eapply fresh_ne; subst s2 s1 s0; by lookups).
    assert (r3 ≠ l) by (eapply fresh_ne; subst s3 s2 s1 s0; by lookups).
    done. }
  split; [|split; [|split]].
  - repeat (apply NoDup_cons; split;
              [rewrite ?elem_of_cons, elem_of_nil; intuition congruence|]).
    apply NoDup_nil_2.
  - intros r Hr. destruct (s !! r) as [o|] eqn:E; [|done].
    destruct (Hold r o E) as (? & ? & ? & ?).
    rewrite ?elem_of_cons, elem_of_nil in Hr. intuition congruence.
  - intros l o Hl. destruct (Hold l o Hl) as (? & ? & ? & ?).
    subst s4 s3 s2 s1 s0. by lookups.
  - intros l Hl.
    rewrite ?elem_of_cons, elem_of_nil in Hl.
    assert (r0 ≠ l ∧ r1 ≠ l ∧ r2 ≠ l ∧ r3 ≠ l) as (? & ? & ? & ?)
      by (repeat split; intros <-; intuition congruence).
    subst s4 s3 s2 s1 s0. by lookups.
Qed.

End DataSetsAllocated.

(** X10.  The generator only allocates: its four arrays are new and distinct, and
    every reference other than these four holds after the call what it held
    before. *)
Theorem generateDataSets_only_allocates (fuel : nat) (s : gmap nat (object float)) :
  101 ≤ fuel →
  ∃ sets s',
    generateDataSets fuel s = Ok sets s' ∧
    NoDup [xTrain sets; yTrain sets; xTest sets; yTest sets] ∧
    (∀ r, r ∈ [xTrain sets; yTrain sets; xTest sets; yTest sets] → s !! r = None) ∧
    (∀ l, l ∉ [xTrain sets; yTrain sets; xTest sets; yTest sets] →
          s' !! l = s !! l).
Proof.
  intros Hfuel.
  destruct (generateDataSets_new fuel trainingGrid testGrid s)
    as (sets & s' & Hrun & Hnodup & Hnew & _ & Hframe).
  { by apply (numberRange_more 101 fuel _ _ _ _ trainingGrid_range). }
  { by apply (numberRange_more 101 fuel _ _ _ _ testGrid_range). }
  by exists sets, s'.
Qed.

Lemma generateDataSets_only_allocates_witness :
  ∃ sets s',
    generateDataSets 101 sampleStore = Ok sets s' ∧
    NoDup [xTrain sets; yTrain sets; xTest sets; yTest sets].
Proof.
  destruct (generateDataSets_only_allocates 101 sampleStore (le_n 101))
    as (sets & s' & Hrun & Hnodup & _).
  exists sets, s'. split; [exact Hrun|exact Hnodup].
Defined.

(** ** The driver's run, over the real numbers *)

Section RealDriver.
Context (nan : R).
#[local] Hint Extern 0 (Number R) => exact (RealNumber nan) : typeclass_instances.
Implicit Types (s : gmap nat (object R)) (xs ys : list R) (nn : NanoNeuron R).
Local Open Scope R_scope.

(** The loop over a number, started at [k + c] with [0 <= c < 1], runs
    through [k + c, k + 1 + c, ...] up to [99 + c]. *)
Lemma numberRange_real (c : R) n : ∀ (k fuel : nat) (x : R),
  0 <= c < 1 →
  x = INR k + c →
  (k + n = 100)%nat →
  (n < fuel)%nat →
  numberRange fuel x (IZR 100) (IZR 1) = Some (map (λ i, INR i + c) (seq k n)).
Proof.
  induction n as [|n IH]; intros k fuel x Hc -> Hk Hfuel;
    (destruct fuel as [|fuel]; [lia|]); cbn [numberRange ltb RealNumber seq map].
  - assert (k = 100%nat) as -> by lia.
    replace (INR 100) with 100 by (rewrite INR_IZR_INZ; done).
    destruct (Rlt_dec (100 + c) 100); [lra|done].
  - assert (INR k <= 99).
    { replace 99 with (INR 99) by (rewrite INR_IZR_INZ; done).
      apply le_INR. lia. }
    destruct (Rlt_dec (INR k + c) 100); [|lra].
    rewrite (IH (S k) fuel); [done|done| |lia|lia].
    rewrite S_INR. cbn [add RealNumber]. lra.
Qed.

Lemma sum_of_squares m :
  6 * sigma m (λ i, INR i ^ 2) = (INR m - 1) * INR m * (2 * INR m - 1).
Proof.
  induction m as [|m IH]; [simpl; lra|].
  cbn [sigma]. rewrite S_INR. lra.
Qed.

Lemma realGrid_step :
  Q2R 0.0005
  * (1 / INR (length realGrid)
     * sigma (length realGrid) (λ i, nth i realGrid 0 ^ 2 + 1)) <= 2.
Proof.
  assert (length realGrid = 100%nat) as -> by (unfold realGrid; by rewrite length_map, length_seq).
  rewrite (sigma_ext _ _ (λ i, INR i ^ 2 + 1)).
  - rewrite sigma_plus.
    pose proof (sum_of_squares 100) as Hsq.
    assert (sigma 100 (λ _, 1) = 100) as -> by (simpl; lra).
    replace (INR 100) with 100 in * by (rewrite INR_IZR_INZ; done).
    unfold Q2R. cbn [Qnum Qden]. lra.
  - intros i Hi. unfold realGrid.
    rewrite (nth_indep _ 0 (INR 0 + 0)) by (by rewrite length_map, length_seq).
    rewrite (map_nth (λ i, INR i + 0)), seq_nth by done.
    cbn [Nat.add]. f_equal. lra.
Qed.

Lemma costs_fall alpha nn xs ys (i j : nat) :
  xs ≠ [] → length xs = length ys →
  0 <= alpha →
  alpha * (1 / INR (length xs) * sigma (length xs) (λ i, nth i xs 0 ^ 2 + 1)) <= 2 →
  (i ≤ j)%nat →
  averageCostOf (Nat.iter j (stepOf alpha xs ys) nn) xs ys
  <= averageCostOf (Nat.iter i (stepOf alpha xs ys) nn) xs ys.
Proof.
  intros Hne Hlen Halpha Hstep Hij. induction Hij as [|j Hij IH]; [lra|].
  rewrite Nat.iter_succ.
  pose proof (step_descends nan alpha (Nat.iter j (stepOf alpha xs ys) nn) xs ys
                Hne Hlen Halpha Hstep). lra.
Qed.

(** X11.  Whatever the two random initial parameters, the last cost the driver
    logs is not above the first, and not below zero. *)
Theorem driver_cost_falls (fuel : nat) (randomW randomB : R) :
  (101 ≤ fuel)%nat →
  ∃ report s',
    main JS fuel randomW randomB ∅ = Ok report s' ∧
    0 <= lastCost report <= firstCost report.
Proof.
  intros Hfuel. unfold main.
  erewrite bind_Ok by reflexivity.
  set (model := fresh (dom (∅ : gmap nat (object R)))).
  set (nn := mkNanoNeuron randomW randomB).
  set (s1 := <[model := Neuron nn]> (∅ : gmap nat (object R))).
  destruct (generateDataSets_Ok fuel realGrid (map (λ i, INR i + Q2R 0.5) (seq 0 100)) s1)
    as (sets & s2 & Hsets & HxTrain & HyTrain & _ & _ & Hkept).
  { apply numberRange_real; [lra|simpl; lra|lia|lia]. }
  { apply numberRange_real; [unfold Q2R; simpl; lra|simpl; lra|lia|lia]. }
  assert (s2 !! model = Some (Neuron nn)) as Hmodel
    by (apply Hkept; subst s1; by lookups).
  erewrite bind_Ok by exact Hsets.
  set (ys := map celsiusToFahrenheit realGrid) in *.
  set (alpha := ofDec 0.0005).
  set (epochs := Z.to_nat 70000).
  assert (0 < epochs)%nat as Hpos by (subst epochs; lia).
  clearbody epochs.
  destruct (trainModel_Ok JS model epochs alpha (xTrain sets) (yTrain sets) nn
              realGrid ys s2)
    as (s3 & Htrain & Htrained & Hhistory & _); try done.
  erewrite bind_Ok by exact Htrain.
  rewrite trainingOf_costs in Hhistory.
  set (costs := map _ (seq 0 epochs)) in Hhistory.
  assert (length costs = epochs) as Hlen
    by (subst costs; by rewrite length_map, length_seq).
  assert (∀ j, (j < epochs)%nat →
            readAt costs j
            = averageCostOf (Nat.iter j (stepOf alpha realGrid ys) nn) realGrid ys)
    as Hread.
  { intros j Hj. unfold readAt. subst costs.
    rewrite list_lookup_fmap, lookup_seq_lt by done. done. }
  mstep ltac:(first [exact Hhistory | done]).
  mstep ltac:(exact Hhistory).
  mstep ltac:(first [exact Hhistory | done]).
  cbv zeta. mstep ltac:(exact Htrained).
  eexists _, _. split; [reflexivity|]. cbn [lastCost firstCost].
  rewrite Hlen, !Hread by lia.
  assert (realGrid ≠ []) as Hne by done.
  assert (length realGrid = length ys) as Hlens
    by (subst ys; by rewrite length_map).
  split.
  - rewrite (averageCostOf_sigma nan) by done.
    apply Rmult_le_pos.
    + apply Rlt_le, Rdiv_lt_0_compat; [lra|].
      apply lt_0_INR. unfold realGrid. rewrite length_map, length_seq. lia.
    + apply sigma_nonneg. intros k _.
      apply Rmult_le_pos; [apply pow2_ge_0|lra].
  - apply costs_fall; [exact Hne|exact Hlens| |exact realGrid_step|lia].
    subst alpha. cbn [ofDec RealNumber]. unfold Q2R. simpl. lra.
Qed.

End RealDriver.

Lemma driver_cost_falls_witness :
  ∃ report s',
    main (H := RealNumber 0) JS 101 (1 / 2)%R (1 / 4)%R ∅ = Ok report s' ∧
    (lastCost report <= firstCost report)%R.
Proof.
  destruct (driver_cost_falls 0 101 (1 / 2)%R (1 / 4)%R (le_n 101))
    as (report & s' & Hrun & _ & Hfalls).
  exists report, s'. split; [exact Hrun|exact Hfalls].
Defined.

Section ForwardAgain.
Context {T : Type} `{Number T}.
Implicit Types (s : gmap nat (object T)) (xs ys : list T) (nn : NanoNeuron T).


End ForwardAgain.

